(** * Cube background models of gammapy: a shallow embedding

    This development embeds [gammapy/background/models.py]: the binning
    policy ([define_cube_binning], [set_cube_binning],
    [_get_min_energy_threshold]), the histogram accumulator
    ([fill_events]), the smoothing engine ([smooth]) and the reading and
    writing of a model ([CubeBackgroundModel.read], [write]).  It also
    embeds the lookup table of the observation groups of the script
    [examples/plot_bg_cube_model_comparison.py], which reads such models.

    Numbers.  Python floats are idealised as exact rationals ([Qc])
    extended with the non-finite values a float division can produce
    ([PInf], [NInf], [NaN]); rounding and signed zeros are not modelled.
    Python integers are [Z].

    Failure.  A Python exception is a value [Err e] of the type [result];
    every function that can raise returns a [result]. *)

From Stdlib Require Import QArith Qcanon ZArith Lia.
From stdpp Require Import base numbers list strings.

Local Open Scope Z_scope.

(** ** Exceptions *)

Inductive exn : Type :=
| ValueError
| KeyError
| IndexError
| UnboundLocalError
| IOError
| UnitsError
| KeyboardInterrupt
| SystemExit.

Inductive result (A : Type) : Type :=
| Ok (a : A)
| Err (e : exn).

Arguments Ok {A} a.
Arguments Err {A} e.

#[global] Instance result_ret : MRet result := fun A a => Ok a.
#[global] Instance result_bind : MBind result := fun A B k r =>
  match r with
  | Ok a => k a
  | Err e => Err e
  end.

Definition is_Ok {A} (r : result A) : bool :=
  match r with Ok _ => true | Err _ => false end.

(** ** Numbers *)

Definition qz (z : Z) : Qc := Q2Qc (inject_Z z).
Definition qfrac (n : Z) (d : positive) : Qc := Q2Qc (n # d).

(** A float: a rational, an infinity or a nan. *)
Inductive xval : Type :=
| Fin (q : Qc)
| PInf
| NInf
| NaN.

#[global] Instance xval_eq_dec : EqDecision xval.
Proof. solve_decision. Defined.

Definition xinf_of_sign (c : comparison) : xval :=
  match c with
  | Gt => PInf
  | Lt => NInf
  | Eq => NaN
  end.

Definition xsign (a : xval) : comparison :=
  match a with
  | Fin q => (q ?= 0)%Qc
  | PInf => Gt
  | NInf => Lt
  | NaN => Eq
  end.

Definition sign_mul (c d : comparison) : comparison :=
  match c, d with
  | Eq, _ | _, Eq => Eq
  | Gt, Gt | Lt, Lt => Gt
  | Gt, Lt | Lt, Gt => Lt
  end.

Definition xadd (a b : xval) : xval :=
  match a, b with
  | NaN, _ | _, NaN => NaN
  | Fin x, Fin y => Fin (x + y)%Qc
  | PInf, NInf | NInf, PInf => NaN
  | PInf, _ | _, PInf => PInf
  | NInf, _ | _, NInf => NInf
  end.

Definition xmul (a b : xval) : xval :=
  match a, b with
  | NaN, _ | _, NaN => NaN
  | Fin x, Fin y => Fin (x * y)%Qc
  | _, _ => xinf_of_sign (sign_mul (xsign a) (xsign b))
  end.

(** Float division never raises: [x/0] is an infinity of the sign of [x],
    [0/0] is nan. *)
Definition xdiv (a b : xval) : xval :=
  match a, b with
  | NaN, _ | _, NaN => NaN
  | Fin x, Fin y =>
      if bool_decide (y = 0%Qc) then xinf_of_sign (x ?= 0)%Qc
      else Fin (x / y)%Qc
  | Fin _, _ => Fin 0%Qc
  | _, Fin y =>
      if bool_decide (y = 0%Qc) then a
      else xinf_of_sign (sign_mul (xsign a) (y ?= 0)%Qc)
  | _, _ => NaN
  end.

(** [a >= b] and [a < b] on floats; every comparison with nan is false. *)
Definition xge (a b : xval) : bool :=
  match a, b with
  | NaN, _ | _, NaN => false
  | Fin x, Fin y => bool_decide (y ≤ x)%Qc
  | PInf, _ => true
  | _, NInf => true
  | _, _ => false
  end.

Definition xlt (a b : xval) : bool :=
  match a, b with
  | NaN, _ | _, NaN => false
  | Fin x, Fin y => bool_decide (x < y)%Qc
  | PInf, _ => false
  | _, NInf => false
  | _, _ => true
  end.

(** ** Arrays

    A numpy array of floats is a nested list; [np_sum] is [ndarray.sum()]. *)

Abbreviation image := (list (list xval)).
Abbreviation cube_data := (list (list (list xval))).

Definition xsum (l : list xval) : xval := foldr xadd (Fin 0%Qc) l.
Definition image_sum (im : image) : xval := xsum (map xsum im).
Definition np_sum (d : cube_data) : xval := xsum (map image_sum d).

(** The shape of an array, as the lengths of its rows. *)
Definition shape_of (d : cube_data) : list (list nat) := map (map length) d.

Definition has_shape (ne ny nx : nat) (d : cube_data) : Prop :=
  shape_of d = replicate ne (replicate ny nx).

(** [np.zeros((ne, ny, nx))]: a negative dimension raises. *)
Definition np_zeros (ne ny nx : Z) : result cube_data :=
  if bool_decide (ne < 0 ∨ ny < 0 ∨ nx < 0) then Err ValueError
  else Ok (replicate (Z.to_nat ne)
             (replicate (Z.to_nat ny) (replicate (Z.to_nat nx) (Fin 0%Qc)))).

(** [np.arange(n)] for an integer [n]: empty when [n <= 0]. *)
Definition np_arange (n : Z) : list Z := seqZ 0 n.

Definition len {A} (l : list A) : Z := Z.of_nat (length l).

(** An elementwise operation on two arrays of one shape.  numpy raises
    [ValueError] for operands it cannot broadcast; broadcasting between
    unequal shapes is outside the model and reported as that error. *)
Definition elementwise (f : xval → xval → xval) (a b : cube_data)
  : result cube_data :=
  if bool_decide (shape_of a = shape_of b)
  then Ok (zip_with (zip_with (zip_with f)) a b)
  else Err ValueError.

(** [a[1:]] and [a[:-1]]. *)
Definition from1 {A} (l : list A) : list A := drop 1 l.
Definition upto_last {A} (l : list A) : list A := take (length l - 1)%nat l.

(** ** Quantities, cubes and models *)

(** An astropy [Quantity] scalar: a float with a unit name. *)
Record Quantity : Type := mkQuantity { value : Qc; unit : string }.

(** Python's [min(a, b)]: [b] when [b < a], otherwise [a].  Both operands
    carry the unit TeV wherever the source calls it. *)
Definition min_quantity (a b : Quantity) : Quantity :=
  if bool_decide (value b < value a)%Qc then b else a.

(** Modelled from the spec: the [Cube] container (class [Cube] of
    [gammapy.background] is not among the sources), "a 3-D array container
    keyed by (energy, Y, X) bin edges" that exposes its bin edges per axis
    and a data array with a physical unit.  Spatial edges are in degrees,
    energy edges in TeV. *)
Record Cube : Type := mkCube {
  coordx_edges : list Qc;
  coordy_edges : list Qc;
  energy_edges : list Qc;
  data : cube_data;
  data_unit : string;
  scheme : string
}.

(** [Cube()]: a cube built without any argument. *)
Definition empty_Cube : Cube := mkCube [] [] [] [] "" "".

Definition with_data (c : Cube) (d : cube_data) : Cube :=
  mkCube (coordx_edges c) (coordy_edges c) (energy_edges c) d
         (data_unit c) (scheme c).

Record CubeBackgroundModel : Type := mkModel {
  counts_cube : Cube;
  livetime_cube : Cube;
  background_cube : Cube
}.

(** [CubeBackgroundModel.set_cube_binning]; [do_not_fill] is not used by
    the source.  [Quantity(empty_cube_data, unit)] copies the array, so the
    three cubes hold three arrays of zeros and share only their edges. *)
Definition set_cube_binning (detx_edges dety_edges energy_edges : list Qc)
    (do_not_fill : bool) : result CubeBackgroundModel :=
  empty_cube_data ← np_zeros (len energy_edges - 1)
                             (len dety_edges - 1)
                             (len detx_edges - 1);
  mret (mkModel
          (mkCube detx_edges dety_edges energy_edges empty_cube_data
                  "" "bg_counts_cube")
          (mkCube detx_edges dety_edges energy_edges empty_cube_data
                  "second" "bg_livetime_cube")
          (mkCube detx_edges dety_edges energy_edges empty_cube_data
                  "1 / (s TeV sr)" "bg_cube")).

(** ** Observations

    What the data store under [fits_path] holds for one row of the
    observation table: the header of the 'EFFECTIVE AREA' extension of its
    effective-area file and its event list.  The rows carry these, so the
    functions below take no [fits_path].  [aeff_LO_THRES] is [None] when
    the header has no LO_THRES card; the comment of the card is where the
    files keep the unit. *)

Record aeff_card : Type := mkCard {
  LO_THRES : Qc;
  LO_THRES_comment : string
}.

Record event : Type := mkEvent { ENERGY : Qc; DETY : Qc; DETX : Qc }.

Record observation : Type := mkObs {
  aeff_LO_THRES : option aeff_card;
  observation_live_time_duration : Qc;
  event_list : list event
}.

Record ObservationTable : Type := mkTable {
  OBSERVATORY_NAME : string;
  rows : list observation
}.

(** The storage scheme of an observatory, as both [fill_events] and
    [_get_min_energy_threshold] choose it. *)
Definition storage_scheme (observatory_name : string) : result string :=
  if bool_decide (observatory_name = "HESS") then Ok "HESS"
  else Err ValueError.

(** The lines that read the threshold of one effective-area header, the
    same in [_get_min_energy_threshold] and in [fill_events].
    [energy_threshold_unit] is the local variable of that name, [None]
    while nothing has been assigned to it; it is returned because it
    lives on to the next turn of the loop. *)
Definition read_energy_threshold (energy_threshold_unit : option string)
    (header : option aeff_card) : result (option string * Quantity) :=
  card ← match header with
         | Some card => Ok card
         | None => Err KeyError
         end;
  let energy_threshold_unit :=
    if bool_decide (LO_THRES_comment card = "[TeV]") then Some "TeV"
    else energy_threshold_unit in
  u ← match energy_threshold_unit with
      | Some u => Ok u
      | None => Err UnboundLocalError
      end;
  mret (energy_threshold_unit, mkQuantity (LO_THRES card) u).

Fixpoint min_energy_threshold_loop (aeff_files : list observation)
    (energy_threshold_unit : option string)
    (min_energy_threshold : Quantity) : result Quantity :=
  match aeff_files with
  | [] => Ok min_energy_threshold
  | i_aeff_file :: rest =>
      r ← read_energy_threshold energy_threshold_unit
                                (aeff_LO_THRES i_aeff_file);
      min_energy_threshold_loop rest r.1
        (min_quantity min_energy_threshold r.2)
  end.

Definition _get_min_energy_threshold (observation_table : ObservationTable)
  : result Quantity :=
  _ ← storage_scheme (OBSERVATORY_NAME observation_table);
  min_energy_threshold_loop (rows observation_table) None
    (mkQuantity (qz 999) "TeV").

(** ** Binning policy *)

Section Binning.

(** [np.log], [np.exp] and the number of degrees in a radian are not
    rational; the binning takes them as given. *)
Variables np_log np_exp : Qc → Qc.
Variable deg_per_rad : Qc.

(** The shape chosen from the number of observations.  [int(n_obs/10)]
    truncates the quotient of a true division. *)
Definition bg_cube_shape (n_obs : Z) : Z * Z * Z :=
  let n_ebins := 20 in
  let n_ybins := 60 in
  let n_xbins := 60 in
  if bool_decide (n_obs < 100) then
    let minus_bins := Z.quot n_obs 10 - 10 in
    (n_ebins + minus_bins, n_ybins + 4 * minus_bins,
     n_xbins + 4 * minus_bins)
  else (n_ebins, n_ybins, n_xbins).

Definition energy_min_of (observation_table : ObservationTable)
    (method : string) : result Quantity :=
  if bool_decide (method = "michi")
  then _get_min_energy_threshold observation_table
  else Ok (mkQuantity (qfrac 1 10) "TeV").

Definition log_edges (n : Z) (lo hi : Qc) : list Qc :=
  let log_delta := ((np_log hi - np_log lo) / qz n)%Qc in
  map (fun i => np_exp (qz i * log_delta + np_log lo)%Qc)
      (np_arange (n + 1)).

Definition linear_edges (n : Z) (lo hi : Qc) : list Qc :=
  let delta := ((hi - lo) / qz n)%Qc in
  map (fun i => (qz i * delta + lo)%Qc) (np_arange (n + 1)).

Definition define_cube_binning (observation_table : ObservationTable)
    (do_not_fill : bool) (method : string)
  : result CubeBackgroundModel :=
  let n_obs := len (rows observation_table) in
  let '(n_ebins, n_ybins, n_xbins) := bg_cube_shape n_obs in
  energy_min ← energy_min_of observation_table method;
  let energy_max := mkQuantity (qz 80) "TeV" in
  let dety_min := (- qfrac 7 100 * deg_per_rad)%Qc in
  let dety_max := (qfrac 7 100 * deg_per_rad)%Qc in
  let detx_min := (- qfrac 7 100 * deg_per_rad)%Qc in
  let detx_max := (qfrac 7 100 * deg_per_rad)%Qc in
  let energy_edges :=
    log_edges n_ebins (value energy_min) (value energy_max) in
  let dety_edges := linear_edges n_ybins dety_min dety_max in
  let detx_edges := linear_edges n_xbins detx_min detx_max in
  set_cube_binning detx_edges dety_edges energy_edges do_not_fill.

End Binning.

(** ** Histogram accumulator *)

(** Modelled from the spec: [EventList.select_energy] (class [EventList]
    is not among the sources), "select only events with energy in
    [threshold, threshold x 1e6]". *)
Definition select_energy (events : list event) (energy_band : Qc * Qc)
  : list event :=
  filter (fun ev => (energy_band.1 ≤ ENERGY ev)%Qc ∧
                    (ENERGY ev ≤ energy_band.2)%Qc) events.

Fixpoint strictly_increasing (edges : list Qc) : bool :=
  match edges with
  | lo :: (hi :: _) as rest =>
      bool_decide (lo < hi)%Qc && strictly_increasing rest
  | _ => true
  end.

(** The bin of [np.histogramdd] that a coordinate falls in: bin [i] is
    [edges[i] <= v < edges[i+1]], the last bin also takes its right edge,
    and a coordinate outside the edges has no bin. *)
Fixpoint bin_index_from (i : nat) (edges : list Qc) (v : Qc) : option nat :=
  match edges with
  | lo :: (hi :: later) as rest =>
      if bool_decide (lo ≤ v)%Qc &&
         (bool_decide (v < hi)%Qc ||
          (bool_decide (v = hi) && bool_decide (later = [])))
      then Some i
      else bin_index_from (S i) rest v
  | _ => None
  end.

Definition bin_index (edges : list Qc) (v : Qc) : option nat :=
  bin_index_from 0 edges v.

Definition event_bin (e_edges y_edges x_edges : list Qc) (ev : event)
  : option (nat * nat * nat) :=
  i ← bin_index e_edges (ENERGY ev);
  j ← bin_index y_edges (DETY ev);
  k ← bin_index x_edges (DETX ev);
  Some (i, j, k).

Definition n_bins (edges : list Qc) : nat := (length edges - 1)%nat.

(** The array of shape [(ne, ny, nx)] whose entry [(i, j, k)] is
    [f i j k]. *)
Definition grid3 {A} (ne ny nx : nat) (f : nat → nat → nat → A)
  : list (list (list A)) :=
  map (fun i => map (fun j => map (fun k => f i j k) (seq 0 nx)) (seq 0 ny))
      (seq 0 ne).

(** [np.histogramdd(sample, [e_edges, y_edges, x_edges])]: the number of
    samples in every 3-D bin; the samples that lie outside the edges on
    some axis are dropped.  Edges with a bin of width zero or less are
    refused ("Found bin edge of size <= 0"). *)
Definition np_histogramdd (sample : list event)
    (e_edges y_edges x_edges : list Qc) : result (list (list (list nat))) :=
  if strictly_increasing e_edges && strictly_increasing y_edges &&
     strictly_increasing x_edges
  then Ok (grid3 (n_bins e_edges) (n_bins y_edges) (n_bins x_edges)
             (fun i j k =>
                length (filter (fun ev =>
                  event_bin e_edges y_edges x_edges ev = Some (i, j, k))
                  sample)))
  else Err ValueError.

Definition of_count (n : nat) : xval := Fin (qz (Z.of_nat n)).
Definition of_bool (b : bool) : xval := Fin (if b then 1 else 0)%Qc.

(** [livetime*mask] with [mask = energy_max > energy_threshold] on the
    grid of the upper energy edge of every 3-D bin. *)
Definition livetime_mask (c : Cube) (livetime : Qc) (energy_threshold : Qc)
  : cube_data :=
  map (fun energy_max =>
         replicate (length (from1 (coordy_edges c)))
           (replicate (length (from1 (coordx_edges c)))
              (xmul (Fin livetime)
                    (of_bool (bool_decide (energy_threshold < energy_max)%Qc)))))
      (from1 (energy_edges c)).

(** One turn of the loop of [fill_events] over the observations.  The
    detector coordinates and energies of the events are taken in the
    units of the edges, so the unit casts of the source change nothing. *)
Definition fill_observation (st : option string * CubeBackgroundModel)
    (obs : observation) : result (option string * CubeBackgroundModel) :=
  let self := st.2 in
  let livetime := observation_live_time_duration obs in
  r ← read_energy_threshold st.1 (aeff_LO_THRES obs);
  let energy_threshold := value r.2 in
  let data_set :=
    select_energy (event_list obs)
      (energy_threshold, (energy_threshold * qz 1000000)%Qc) in
  ev_cube_hist ← np_histogramdd data_set
                   (energy_edges (counts_cube self))
                   (coordy_edges (counts_cube self))
                   (coordx_edges (counts_cube self));
  counts_data ← elementwise xadd (data (counts_cube self))
                  (map (map (map of_count)) ev_cube_hist);
  livetime_data ← elementwise xadd (data (livetime_cube self))
                    (livetime_mask (counts_cube self) livetime
                                   energy_threshold);
  mret (r.1, mkModel (with_data (counts_cube self) counts_data)
                     (with_data (livetime_cube self) livetime_data)
                     (background_cube self)).

Fixpoint fill_loop (observations : list observation)
    (st : option string * CubeBackgroundModel)
  : result (option string * CubeBackgroundModel) :=
  match observations with
  | [] => Ok st
  | obs :: rest => st' ← fill_observation st obs; fill_loop rest st'
  end.

Definition fill_events (self : CubeBackgroundModel)
    (observation_table : ObservationTable) : result CubeBackgroundModel :=
  _ ← storage_scheme (OBSERVATORY_NAME observation_table);
  st ← fill_loop (rows observation_table) (None, self);
  mret st.2.

(** ** Smoothing engine *)

(** The smoothing kernel k5a. *)
Definition kernel : list (list Z) :=
  [ [0; 0; 1; 0; 0];
    [0; 2; 2; 2; 0];
    [1; 2; 5; 2; 1];
    [0; 2; 2; 2; 0];
    [0; 0; 1; 0; 0] ].

(** scipy's boundary mode 'reflect', the default of [ndimage.convolve]:
    the position read for index [i] on an axis of length [n] when the
    axis is extended by mirroring about its edges,
    (d c b a | a b c d | d c b a). *)
Definition reflect (n : nat) (i : Z) : nat :=
  if bool_decide (n ≤ 1)%nat then 0%nat
  else
    let m := i `mod` (2 * Z.of_nat n) in
    Z.to_nat (if bool_decide (m < Z.of_nat n) then m
              else 2 * Z.of_nat n - 1 - m).

(** The weights that take part in the filter, with their positions:
    scipy leaves the zero weights out of the footprint. *)
Definition footprint (weights : list (list Z)) : list (Z * Z * Z) :=
  filter (fun t => t.2 ≠ 0)
    (concat (imap (fun ky wrow =>
               imap (fun kx wt => (Z.of_nat ky, Z.of_nat kx, wt)) wrow)
             weights)).

Definition pixel (input : image) (y x : nat) : xval :=
  default (Fin 0%Qc) (row ← input !! y; row !! x).

(** [ndimage.convolve(input, weights)] on a 2-D image with the defaults
    of scipy ([mode='reflect'], [origin=0]): the output pixel [(y, x)] is
    the sum of [weights[ky][kx] * input[y + cy - ky][x + cx - kx]] with
    [(cy, cx)] the centre of the weights. *)
Definition ndimage_convolve (input : image) (weights : list (list Z))
  : image :=
  let cy := len weights `div` 2 in
  let cx := len (default [] (head weights)) `div` 2 in
  let h := length input in
  imap (fun y row =>
          imap (fun x _ =>
                  xsum (map (fun t =>
                          xmul (Fin (qz t.2))
                               (pixel input
                                  (reflect h (Z.of_nat y + cy - t.1.1))
                                  (reflect (length row)
                                           (Z.of_nat x + cx - t.1.2))))
                        (footprint weights)))
               row)
       input.

(** A [for] loop over a list of integers whose body may raise. *)
Fixpoint for_each {S : Type} (l : list Z) (body : Z → S → result S) (s : S)
  : result S :=
  match l with
  | [] => Ok s
  | i :: rest => s' ← body i s; for_each rest body s'
  end.

(** [a[i]] on the first axis of an array, for [i >= 0]. *)
Definition getitem {A} (a : list A) (i : Z) : result A :=
  match a !! Z.to_nat i with
  | Some x => Ok x
  | None => Err IndexError
  end.

(** The number of times to smooth, from the sum of the counts cube. *)
Definition n_smooth_of (n_counts : xval) : Z :=
  if xge n_counts (Fin (qz 1000000)) then 3
  else if xlt n_counts (Fin (qz 1000000)) && xge n_counts (Fin (qz 100000))
       then 4
       else 5.

(** The body of the inner loop of [smooth]: one pass over one image. *)
Definition smooth_pass (i_energy : Z) (d : cube_data) : result cube_data :=
  data_i ← getitem d i_energy;
  let image_smooth := ndimage_convolve data_i kernel in
  mret (<[Z.to_nat i_energy := image_smooth]> d).

(** [data[i_energy] *= ratio[i_energy]]. *)
Definition scale_image (ratio : list xval) (i_energy : Z) (d : cube_data)
  : result cube_data :=
  data_i ← getitem d i_energy;
  f ← getitem ratio i_energy;
  mret (<[Z.to_nat i_energy := map (map (fun v => xmul v f)) data_i]> d).

(** The loop of [smooth] over the energy bins and the number of times to
    smooth, which overwrites every image with its smoothed image. *)
Definition smooth_images (self : CubeBackgroundModel) : result cube_data :=
  let bg := background_cube self in
  let n_counts := np_sum (data (counts_cube self)) in
  let n_smooth := n_smooth_of n_counts in
  for_each (np_arange (len (energy_edges bg) - 1))
    (fun i_energy d =>
       for_each (np_arange n_smooth)
                (fun _ d' => smooth_pass i_energy d') d)
    (data bg).

Section Smoothing.

(** The number of steradians in a square degree, for [.to('sr')]. *)
Variable sr_per_deg2 : Qc.

(** The solid angle of every 3-D bin, on the grid of bin widths. *)
Definition bin_area (c : Cube) : cube_data :=
  let delta_y := zip_with Qcminus (from1 (coordy_edges c))
                                  (upto_last (coordy_edges c)) in
  let delta_x := zip_with Qcminus (from1 (coordx_edges c))
                                  (upto_last (coordx_edges c)) in
  map (fun _ =>
         map (fun dy =>
                map (fun dx => Fin (dy * dx * sr_per_deg2)%Qc) delta_x)
             delta_y)
      (upto_last (energy_edges c)).

(** [(data*bin_area).sum(axis=(1, 2))]: the integral of every image. *)
Definition integral_images (d area : cube_data) : result (list xval) :=
  prod ← elementwise xmul d area;
  mret (map image_sum prod).

Definition smooth (self : CubeBackgroundModel)
  : result CubeBackgroundModel :=
  let bg := background_cube self in
  let area := bin_area bg in
  integral_image ← integral_images (data bg) area;
  smoothed ← smooth_images self;
  integral_image_smooth ← integral_images smoothed area;
  let ratio := zip_with xdiv integral_image integral_image_smooth in
  scaled ← for_each (np_arange (len (energy_edges bg) - 1))
                    (scale_image ratio) smoothed;
  mret (mkModel (counts_cube self) (livetime_cube self)
                (with_data bg scaled)).

End Smoothing.

(** ** Reading a model *)

Section Reading.

(** The file system and the [Cube] class, which are not part of this
    module: what [fits.open], [Cube.define_scheme] and [Cube.read]
    return or raise. *)
Variables HDUList scheme_dict : Type.
Variable fits_open : string → result HDUList.
Variable Cube_define_scheme : string → result scheme_dict.
Variable Cube_read : string → string → string → result Cube.

(** [try: body except: handler], which catches every exception. *)
Definition try_except {A} (body : result A) (handler : result A)
  : result A :=
  match body with
  | Ok a => Ok a
  | Err _ => handler
  end.

Definition read (filename format : string) : result CubeBackgroundModel :=
  hdu ← fits_open filename;
  counts_scheme_dict ← Cube_define_scheme "bg_counts_cube";
  livetime_scheme_dict ← Cube_define_scheme "bg_livetime_cube";
  background_scheme_dict ← Cube_define_scheme "bg_cube";
  cubes ← try_except
             (counts_cube ← Cube_read filename format "bg_counts_cube";
              livetime_cube ← Cube_read filename format "bg_livetime_cube";
              mret (counts_cube, livetime_cube))
             (Ok (empty_Cube, empty_Cube));
  background_cube ← Cube_read filename format "bg_cube";
  mret (mkModel cubes.1 cubes.2 background_cube).

(** The three calls of [Cube.define_scheme] return. *)
Definition schemes_defined : Prop :=
  is_Ok (Cube_define_scheme "bg_counts_cube") = true ∧
  is_Ok (Cube_define_scheme "bg_livetime_cube") = true ∧
  is_Ok (Cube_define_scheme "bg_cube") = true.

(** A file that [fits.open] cannot open has no background cube that
    [Cube.read] can read. *)
Definition unopened_unreadable (filename format : string) : Prop :=
  is_Ok (fits_open filename) = false →
  is_Ok (Cube_read filename format "bg_cube") = false.

End Reading.

(** ** Writing a model *)

Section Writing.

(** The [io.fits] module and the [Cube] class, which are not part of this
    module: the empty primary HDU, and what [Cube.to_fits_table],
    [Cube.write] and [HDUList.writeto] return or raise.  The keyword
    arguments are passed on as they are and left out. *)
Variable HDU : Type.
Variable PrimaryHDU : HDU.
Variable Cube_to_fits_table : Cube → result HDU.
Variable Cube_write : Cube → string → string → result ().
Variable HDUList_writeto : list HDU → string → result ().

(** [x == 0] on a float. *)
Definition is_zero (x : xval) : bool := bool_decide (x = Fin 0%Qc).

Definition write (self : CubeBackgroundModel) (outfile format : string)
  : result () :=
  if is_zero (np_sum (data (counts_cube self))) ||
     is_zero (np_sum (data (livetime_cube self)))
  then Cube_write (background_cube self) outfile format
  else
    if bool_decide (format = "table") then
      counts_table ← Cube_to_fits_table (counts_cube self);
      livetime_table ← Cube_to_fits_table (livetime_cube self);
      background_table ← Cube_to_fits_table (background_cube self);
      HDUList_writeto
        [PrimaryHDU; counts_table; livetime_table; background_table] outfile
    else if bool_decide (format = "image") then
      Cube_write (background_cube self) outfile format
    else Err ValueError.

End Writing.

(** ** The lookup of the observation groups

    The script [examples/plot_bg_cube_model_comparison.py], which reads
    two sets of models with [CubeBackgroundModel.read], names the files of
    one set by altitude and azimuth bin and keeps a table from the group
    ID to these two. *)

Definition altitude_edges : list Z :=
  [0; 20; 23; 27; 30; 33; 37; 40; 44; 49; 53; 58; 64; 72; 90].
Definition azimuth_edges : list Z := [-90; 90; 270].

(** The three columns of the table [lookup_obs_groups_michi]. *)
Record lookup_table : Type := mkLookup {
  GROUP_ID : list Z;
  ALT_ID : list Z;
  AZ_ID : list Z
}.

(** [np.zeros(n, dtype=np.int)]. *)
Definition np_zeros_int (n : Z) : result (list Z) :=
  if bool_decide (n < 0) then Err ValueError
  else Ok (replicate (Z.to_nat n) 0).

(** [a[i] = v] on a 1-D array, for [i >= 0]. *)
Definition setitem (a : list Z) (i v : Z) : result (list Z) :=
  if bool_decide (i < len a) then Ok (<[Z.to_nat i := v]> a)
  else Err IndexError.

(** The body of the loops that fill the table; [count_groups] is the
    counter that the loops share. *)
Definition fill_lookup_row (alt_id az_id : Z) (st : lookup_table * Z)
  : result (lookup_table * Z) :=
  let count_groups := st.2 in
  group_id ← setitem (GROUP_ID st.1) count_groups count_groups;
  alt_column ← setitem (ALT_ID st.1) count_groups alt_id;
  az_column ← setitem (AZ_ID st.1) count_groups az_id;
  mret (mkLookup group_id alt_column az_column, count_groups + 1).

(** The table, as the script builds it when it is loaded.  [n_groups]
    stands for [obs_groups_michi.n_groups], the number of groups that
    the class [ObservationGroups] gives for the two axes. *)
Definition lookup_obs_groups_michi (altitude_edges azimuth_edges : list Z)
    (n_groups : Z) : result lookup_table :=
  let n_rows := n_groups in
  group_id ← np_zeros_int n_rows;
  alt_column ← np_zeros_int n_rows;
  az_column ← np_zeros_int n_rows;
  st ← for_each (np_arange (len altitude_edges - 1))
         (fun alt_id st =>
            for_each (np_arange (len azimuth_edges - 1))
              (fun az_id st' => fill_lookup_row alt_id az_id st') st)
         (mkLookup group_id alt_column az_column, 0);
  mret st.1.

(** [np.where(a == v)[0][0]]: the first position that holds [v]. *)
Definition first_where (a : list Z) (v : Z) : result Z :=
  match list_find (fun x => x = v) a with
  | Some (i, _) => Ok (Z.of_nat i)
  | None => Err IndexError
  end.

Definition look_obs_groups_michi (table : lookup_table) (group_id : Z)
  : result (Z * Z) :=
  row ← first_where (GROUP_ID table) group_id;
  i_alt ← getitem (ALT_ID table) row;
  i_az ← getitem (AZ_ID table) row;
  mret (i_alt, i_az).

(** ** Vocabulary of the properties *)

(** The numbers of edges of a cube, (energy, Y, X). *)
Definition edge_counts (c : Cube) : Z * Z * Z :=
  (len (energy_edges c), len (coordy_edges c), len (coordx_edges c)).

(** The header card of a threshold given in TeV. *)
Definition TeV_card (v : Qc) : option aeff_card := Some (mkCard v "[TeV]").

(** The minimum of a list of values, capped by a start value. *)
Definition capped_min (cap : Qc) (l : list Qc) : Qc :=
  foldl (fun a b => if bool_decide (b < a)%Qc then b else a) cap l.

(** A file that has only the background table, interrupted or not while
    the counts are read. *)
Definition background_only_file (e : exn) (b : Cube)
  : string → string → string → result Cube :=
  fun _ _ scheme => if bool_decide (scheme = "bg_cube") then Ok b else Err e.

(** One smoothing pass over an image, and [n] of them. *)
Definition smooth_once (im : image) : image := ndimage_convolve im kernel.
Definition smooth_times (n : nat) (im : image) : image :=
  Nat.iter n smooth_once im.

(** The convolution as the specification words it, "using zero-padded
    boundary handling": a position outside the image reads as zero. *)
Definition pixel_zero_padded (input : image) (y x : Z) : xval :=
  if bool_decide (0 ≤ y ∧ 0 ≤ x) then pixel input (Z.to_nat y) (Z.to_nat x)
  else Fin 0%Qc.

Definition convolve_zero_padded (input : image) (weights : list (list Z))
  : image :=
  let cy := len weights `div` 2 in
  let cx := len (default [] (head weights)) `div` 2 in
  imap (fun y row =>
          imap (fun x _ =>
                  xsum (map (fun t =>
                          xmul (Fin (qz t.2))
                               (pixel_zero_padded input
                                  (Z.of_nat y + cy - t.1.1)
                                  (Z.of_nat x + cx - t.1.2)))
                        (footprint weights)))
               row)
       input.

(** The number of passes that the specification gives for a total of
    [q] counts. *)
Definition passes (q : Qc) : nat :=
  if bool_decide (qz 1000000 ≤ q)%Qc then 3%nat
  else if bool_decide (qz 100000 ≤ q)%Qc then 4%nat
  else 5%nat.

(** A model with one energy bin and an image of 1 x 2 pixels that holds
    [a] and [b]; its counts cube holds [n] counts. *)
Definition two_pixel_model (n : Z) (a b : Z) : CubeBackgroundModel :=
  let cube d u s := mkCube [qz 0; qz 1; qz 2] [qz 0; qz 1] [qz 1; qz 10]
                           [[[Fin (qz d.1); Fin (qz d.2)]]] u s in
  mkModel (cube (n, 0) "" "bg_counts_cube")
          (cube (1, 1) "second" "bg_livetime_cube")
          (cube (a, b) "1 / (s TeV sr)" "bg_cube").

(** The entry [(e, y, x)] of an array. *)
Definition at3 (d : cube_data) (e y x : nat) : option xval :=
  im ← d !! e; row ← im !! y; row !! x.

(** The livetime that an observation adds to a bin whose upper energy
    edge is [energy_max]. *)
Definition livetime_share (energy_max : Qc) (obs : observation) : xval :=
  match aeff_LO_THRES obs with
  | Some card =>
      if bool_decide (LO_THRES card < energy_max)%Qc
      then Fin (observation_live_time_duration obs)
      else Fin 0%Qc
  | None => Fin 0%Qc
  end.

(** The edges of a cube, (X, Y, energy). *)
Definition edges_of (c : Cube) : list Qc * list Qc * list Qc :=
  (coordx_edges c, coordy_edges c, energy_edges c).

(** An observation with threshold 0.5 TeV, livetime 1800 s and events at
    2 TeV, 0.2 TeV and 100 TeV. *)
Definition three_event_observation : observation :=
  mkObs (TeV_card (qfrac 1 2)) (qz 1800)
        [ mkEvent (qz 2) (qfrac 1 2) (qfrac 3 2);
          mkEvent (qfrac 1 5) (qfrac 1 2) (qfrac 1 2);
          mkEvent (qz 100) (qfrac 1 2) (qfrac 1 2) ].

(** A group of two observations: the one above and one with threshold
    20 TeV, livetime 900 s and no event. *)
Definition two_observations : ObservationTable :=
  mkTable "HESS"
    [ three_event_observation; mkObs (TeV_card (qz 20)) (qz 900) [] ].

(** The integral of every image of the data [d] over the bins of the
    cube [c]. *)
Definition integrals (sr_per_deg2 : Qc) (c : Cube) (d : cube_data)
  : list xval :=
  map image_sum (zip_with (zip_with (zip_with xmul)) d
                          (bin_area sr_per_deg2 c)).

(** The images of the background cube after the smoothing passes, before
    they are scaled. *)
Definition smoothed_data (m : CubeBackgroundModel) : cube_data :=
  map (smooth_times (Z.to_nat (n_smooth_of (np_sum (data (counts_cube m))))))
      (data (background_cube m)).

(** The quotient of the integrals before and after the passes, for
    every image. *)
Definition scale_factors (sr_per_deg2 : Qc) (m : CubeBackgroundModel)
  : list xval :=
  zip_with xdiv
    (integrals sr_per_deg2 (background_cube m) (data (background_cube m)))
    (integrals sr_per_deg2 (background_cube m) (smoothed_data m)).

Definition scale (f : xval) (im : image) : image :=
  map (map (fun v => xmul v f)) im.

Definition scaled_data (sr_per_deg2 : Qc) (m : CubeBackgroundModel)
  : cube_data :=
  imap (fun i im => scale (default NaN (scale_factors sr_per_deg2 m !! i)) im)
       (smoothed_data m).

(** The cubes of a model share their edges, and their data have the shape
    that the edges give. *)
Definition binned (edges : list Qc * list Qc * list Qc) (c : Cube) : Prop :=
  edges_of c = edges ∧
  has_shape (n_bins edges.2) (n_bins edges.1.2) (n_bins edges.1.1) (data c).

Definition shared_binning (m : CubeBackgroundModel) : Prop :=
  binned (edges_of (counts_cube m)) (counts_cube m) ∧
  binned (edges_of (counts_cube m)) (livetime_cube m) ∧
  binned (edges_of (counts_cube m)) (background_cube m).

(** The model that [set_cube_binning] builds for one energy bin and an
    image of 1 x 2 pixels. *)
Definition zero_model : CubeBackgroundModel :=
  let cube u s := mkCube [qz 0; qz 1; qz 2] [qz 0; qz 1] [qz 1; qz 10]
                         [[[Fin 0%Qc; Fin 0%Qc]]] u s in
  mkModel (cube "" "bg_counts_cube") (cube "second" "bg_livetime_cube")
          (cube "1 / (s TeV sr)" "bg_cube").

(** A coordinate lies within the edges of an axis: between the first and
    the last edge, both included. *)
Definition within (edges : list Qc) (v : Qc) : bool :=
  match head edges, last edges with
  | Some lo, Some hi =>
      bool_decide (2 ≤ length edges)%nat &&
      bool_decide (lo ≤ v)%Qc && bool_decide (v ≤ hi)%Qc
  | _, _ => false
  end.

(** An event lies within the edges of a cube on the three axes. *)
Definition inside_edges (e_edges y_edges x_edges : list Qc) (ev : event)
  : bool :=
  within e_edges (ENERGY ev) && within y_edges (DETY ev) &&
  within x_edges (DETX ev).

(** The sum of [f i j k] over a grid of indices. *)
Definition sum_seq (n : nat) (g : nat → nat) : nat :=
  sum_list_with g (seq 0 n).

Definition sum_grid (ne ny nx : nat) (f : nat → nat → nat → nat) : nat :=
  sum_seq ne (fun i => sum_seq ny (fun j => sum_seq nx (fun k => f i j k))).

(** A model with two energy bins and images of 1 x 2 pixels: the
    background of the first bin holds 1 and 0, that of the second bin is
    empty. *)
Definition empty_bin_model : CubeBackgroundModel :=
  let cube d u s := mkCube [qz 0; qz 1; qz 2] [qz 0; qz 1]
                           [qz 1; qz 10; qz 100] d u s in
  mkModel (cube [[[Fin (qz 7); Fin 0%Qc]]; [[Fin 0%Qc; Fin 0%Qc]]]
                "" "bg_counts_cube")
          (cube [[[Fin (qz 1800); Fin (qz 1800)]];
                 [[Fin (qz 1800); Fin (qz 1800)]]]
                "second" "bg_livetime_cube")
          (cube [[[Fin (qz 1); Fin 0%Qc]]; [[Fin 0%Qc; Fin 0%Qc]]]
                "1 / (s TeV sr)" "bg_cube").

(** A coordinate lies in bin [i] of an axis: from the lower edge of the
    bin, included, to its upper edge, excluded unless the bin is the
    last one. *)
Definition in_bin (edges : list Qc) (i : nat) (v : Qc) : bool :=
  match edges !! i, edges !! S i with
  | Some lo, Some hi =>
      bool_decide (lo ≤ v)%Qc &&
      (bool_decide (v < hi)%Qc ||
       (bool_decide (v = hi) && bool_decide (S (S i) = length edges)))
  | _, _ => false
  end.

(** The events of an observation that [fill_events] counts in the 3-D
    bin [(i, j, k)] of a cube: those that pass the energy selection and
    lie in the bin on the three axes. *)
Definition events_in_bin (c : Cube) (i j k : nat) (obs : observation)
  : list event :=
  match aeff_LO_THRES obs with
  | Some card =>
      filter (fun ev => in_bin (energy_edges c) i (ENERGY ev) &&
                        in_bin (coordy_edges c) j (DETY ev) &&
                        in_bin (coordx_edges c) k (DETX ev) = true)
        (select_energy (event_list obs)
           (LO_THRES card, (LO_THRES card * qz 1000000)%Qc))
  | None => []
  end.
(** The histogram and the livetime that [fill_events] adds for one
    observation with threshold [threshold], as arrays. *)
Definition observation_counts (c : Cube) (obs : observation)
    (threshold : Qc) : cube_data :=
  map (map (map of_count))
    (grid3 (n_bins (energy_edges c)) (n_bins (coordy_edges c))
       (n_bins (coordx_edges c))
       (fun i j k =>
          length (filter (fun ev =>
            event_bin (energy_edges c) (coordy_edges c) (coordx_edges c) ev
              = Some (i, j, k))
            (select_energy (event_list obs)
               (threshold, (threshold * qz 1000000)%Qc))))).

(** A model that [fill_events] can fill: the edges of its counts cube
    increase, and the data of its counts and livetime cubes have the
    shape that these edges give. *)
Definition fillable (m : CubeBackgroundModel) : bool :=
  let c := counts_cube m in
  let shape := replicate (n_bins (energy_edges c))
                 (replicate (n_bins (coordy_edges c))
                    (n_bins (coordx_edges c))) in
  strictly_increasing (energy_edges c) &&
  strictly_increasing (coordy_edges c) &&
  strictly_increasing (coordx_edges c) &&
  bool_decide (shape_of (data c) = shape) &&
  bool_decide (shape_of (data (livetime_cube m)) = shape).

(** The model after one observation with threshold [threshold] has been
    added to a fillable model. *)
Definition filled_with (m : CubeBackgroundModel) (obs : observation)
    (threshold : Qc) : CubeBackgroundModel :=
  mkModel
    (with_data (counts_cube m)
       (zip_with (zip_with (zip_with xadd)) (data (counts_cube m))
          (observation_counts (counts_cube m) obs threshold)))
    (with_data (livetime_cube m)
       (zip_with (zip_with (zip_with xadd)) (data (livetime_cube m))
          (livetime_mask (counts_cube m)
             (observation_live_time_duration obs) threshold)))
    (background_cube m).

(** Every header of the list gives its threshold in TeV. *)
Definition all_TeV (l : list observation) : Prop :=
  Forall (fun obs => ∃ v, aeff_LO_THRES obs = TeV_card v) l.

(** The first header of the list, if there is one, has the annotation
    '[TeV]'. *)
Definition starts_with_TeV (l : list observation) : Prop :=
  match l with
  | obs :: _ =>
      match aeff_LO_THRES obs with
      | Some card => LO_THRES_comment card = "[TeV]"
      | None => True
      end
  | [] => True
  end.

(** An image whose pixels are all zero. *)
Definition all_zero (im : image) : Prop :=
  Forall (Forall (fun v => v = Fin 0%Qc)) im.

(** The image of [h] x [w] pixels that all hold [c]. *)
Definition flat (h w : nat) (c : Qc) : image :=
  replicate h (replicate w (Fin c)).

(** A column of [n] rows of which the first [c] are filled, row [i] with
    [f i], and the others hold zero. *)
Definition filled_upto (f : Z → Z) (n c : Z) : list Z :=
  map (fun i => if bool_decide (i < c) then f i else 0) (seqZ 0 n).

(** The lookup table of [n] rows after [c] turns of the loops over
    [n_az] azimuth bins. *)
Definition lookup_upto (n_az n c : Z) : lookup_table :=
  mkLookup (filled_upto (fun i => i) n c)
           (filled_upto (fun i => i `div` n_az) n c)
           (filled_upto (fun i => i `mod` n_az) n c).

(** * Properties *)

(** ** Results *)

Lemma bind_Ok {A B} (r : result A) (k : A → result B) (b : B) :
  r ≫= k = Ok b ↔ ∃ a, r = Ok a ∧ k a = Ok b.
Proof.
  destruct r as [a|e]; simpl.
  - split; [by exists a | by intros (? & [= <-] & ?)].
  - split; [done | by intros (? & ? & ?)].
Qed.

Lemma len_map {A B} (f : A → B) (l : list A) : len (map f l) = len l.
Proof. unfold len. by rewrite length_map. Qed.

Lemma len_np_arange (n : Z) : 0 ≤ n → len (np_arange n) = n.
Proof. intros Hn. unfold len, np_arange. rewrite length_seqZ. lia. Qed.

(** ** Binning policy *)

Lemma bg_cube_shape_floor (n_obs : Z) :
  0 ≤ n_obs →
  bg_cube_shape n_obs =
    if bool_decide (100 ≤ n_obs) then (20, 60, 60)
    else let k := n_obs `div` 10 - 10 in (20 + k, 60 + 4 * k, 60 + 4 * k).
Proof.
  intros Hn. unfold bg_cube_shape.
  rewrite Z.quot_div_nonneg by lia.
  repeat case_bool_decide; try lia; reflexivity.
Qed.

Lemma bg_cube_shape_bounds (n_obs : Z) :
  0 ≤ n_obs →
  10 ≤ (bg_cube_shape n_obs).1.1 ≤ 20 ∧
  20 ≤ (bg_cube_shape n_obs).1.2 ≤ 60 ∧
  20 ≤ (bg_cube_shape n_obs).2 ≤ 60.
Proof.
  intros Hn. rewrite bg_cube_shape_floor by done.
  case_bool_decide; simpl; [lia|].
  assert (0 ≤ n_obs `div` 10 < 10)
    by (split; [apply Z.div_pos; lia | apply Z.div_lt_upper_bound; lia]).
  lia.
Qed.

Lemma set_cube_binning_Ok (x_edges y_edges e_edges : list Qc) (b : bool) :
  1 ≤ len e_edges → 1 ≤ len y_edges → 1 ≤ len x_edges →
  ∃ d, np_zeros (len e_edges - 1) (len y_edges - 1) (len x_edges - 1) = Ok d ∧
       set_cube_binning x_edges y_edges e_edges b =
       Ok (mkModel (mkCube x_edges y_edges e_edges d "" "bg_counts_cube")
                   (mkCube x_edges y_edges e_edges d "second"
                           "bg_livetime_cube")
                   (mkCube x_edges y_edges e_edges d "1 / (s TeV sr)"
                           "bg_cube")).
Proof.
  intros He Hy Hx. unfold set_cube_binning, np_zeros.
  rewrite bool_decide_eq_false_2 by lia. eexists. split; reflexivity.
Qed.

(** C6: the bin counts are (20, 60, 60) from 100 observations on and
    (20 + k, 60 + 4k, 60 + 4k) with k = floor(n_obs/10) - 10 below; 100, 99
    and 50 observations give (20, 60, 60), (19, 56, 56) and (15, 40, 40);
    and whenever [define_cube_binning] returns a model, which it always does
    under the default method, the edge vectors of its cubes have one element
    more than the bin counts. *)
Theorem define_cube_binning_bin_counts
    (np_log np_exp : Qc → Qc) (deg_per_rad : Qc)
    (observation_table : ObservationTable) (do_not_fill : bool)
    (method : string) :
  let n_obs := len (rows observation_table) in
  let k := n_obs `div` 10 - 10 in
  let bins := if bool_decide (100 ≤ n_obs) then (20, 60, 60)
              else (20 + k, 60 + 4 * k, 60 + 4 * k) in
  bg_cube_shape n_obs = bins ∧
  bg_cube_shape 100 = (20, 60, 60) ∧
  bg_cube_shape 99 = (19, 56, 56) ∧
  bg_cube_shape 50 = (15, 40, 40) ∧
  match define_cube_binning np_log np_exp deg_per_rad
          observation_table do_not_fill method with
  | Ok m =>
      let edges := (bins.1.1 + 1, bins.1.2 + 1, bins.2 + 1) in
      edge_counts (counts_cube m) = edges ∧
      edge_counts (livetime_cube m) = edges ∧
      edge_counts (background_cube m) = edges
  | Err _ => method = "michi" ∧
             is_Ok (_get_min_energy_threshold observation_table) = false
  end.
Proof.
  intros n_obs k bins.
  assert (Hn : 0 ≤ n_obs) by (unfold n_obs, len; lia).
  assert (Hs : bg_cube_shape n_obs = bins).
  { rewrite bg_cube_shape_floor by done. unfold bins.
    by case_bool_decide. }
  split; [done|]. do 3 (split; [reflexivity|]).
  pose proof (bg_cube_shape_bounds n_obs Hn) as Hb.
  unfold define_cube_binning. fold n_obs. rewrite Hs in *.
  destruct bins as [[ne ny] nx]. simpl in Hb.
  unfold energy_min_of. case_bool_decide as Hm.
  - destruct (_get_min_energy_threshold observation_table) as [emin|e];
      simpl; [|done].
    edestruct (set_cube_binning_Ok) as (d & _ & ->);
      [| | |unfold edge_counts; simpl;
            unfold log_edges, linear_edges;
            rewrite !len_map, !len_np_arange by lia; done];
      unfold log_edges, linear_edges;
      rewrite len_map, len_np_arange; lia.
  - simpl.
    edestruct (set_cube_binning_Ok) as (d & _ & ->);
      [| | |unfold edge_counts; simpl;
            unfold log_edges, linear_edges;
            rewrite !len_map, !len_np_arange by lia; done];
      unfold log_edges, linear_edges;
      rewrite len_map, len_np_arange; lia.
Qed.

(** ** Energy thresholds *)

Lemma read_energy_threshold_TeV (u : option string) (v : Qc) :
  read_energy_threshold u (TeV_card v) = Ok (Some "TeV", mkQuantity v "TeV").
Proof. reflexivity. Qed.

(** The unit variable keeps its value when the comment is not '[TeV]'. *)
Lemma read_energy_threshold_stale (u : string) (v : Qc) (c : string) :
  c ≠ "[TeV]" →
  read_energy_threshold (Some u) (Some (mkCard v c)) =
    Ok (Some u, mkQuantity v u).
Proof.
  intros Hc. unfold read_energy_threshold. simpl.
  by rewrite bool_decide_eq_false_2.
Qed.

Lemma read_energy_threshold_unbound (v : Qc) (c : string) :
  c ≠ "[TeV]" →
  read_energy_threshold None (Some (mkCard v c)) = Err UnboundLocalError.
Proof.
  intros Hc. unfold read_energy_threshold. simpl.
  by rewrite bool_decide_eq_false_2.
Qed.

Lemma min_energy_threshold_loop_TeV (l : list observation) (vs : list Qc)
    (u : option string) (q : Qc) :
  map aeff_LO_THRES l = map TeV_card vs →
  min_energy_threshold_loop l u (mkQuantity q "TeV") =
    Ok (mkQuantity (capped_min q vs) "TeV").
Proof.
  revert vs u q. induction l as [|o l IH]; intros [|v vs] u q Heq;
    simplify_eq/=; [done|].
  rewrite H, read_energy_threshold_TeV. simpl.
  unfold min_quantity. simpl.
  case_bool_decide; by apply IH.
Qed.

(** The result of the scan is the least of 999 TeV and the thresholds. *)
Lemma capped_min_spec (cap : Qc) (l : list Qc) :
  (capped_min cap l ≤ cap)%Qc ∧
  (∀ v, v ∈ l → (capped_min cap l ≤ v)%Qc) ∧
  (capped_min cap l = cap ∨ capped_min cap l ∈ l).
Proof.
  revert cap. induction l as [|v l IH]; intros cap.
  - simpl. split; [apply Qcle_refl|].
    split; [by intros v Hv; inversion Hv|by left].
  - cbn [capped_min foldl].
    fold (capped_min (if bool_decide (v < cap)%Qc then v else cap) l).
    destruct (IH (if bool_decide (v < cap)%Qc then v else cap))
      as (Hle & Hall & Hin).
    case_bool_decide as Hlt.
    + split; [eapply Qcle_trans; [done|by apply Qclt_le_weak]|].
      split.
      * intros w Hw.
        apply elem_of_cons in Hw as [->|Hw]; [done|by apply Hall].
      * right. destruct Hin as [->|Hin]; [by left|by right].
    + apply Qcnot_lt_le in Hlt.
      split; [done|]. split.
      * intros w Hw. apply elem_of_cons in Hw as [->|Hw];
          [by eapply Qcle_trans|by apply Hall].
      * destruct Hin as [->|Hin]; [by left|right; by right].
Qed.

Lemma get_min_energy_threshold_TeV (observation_table : ObservationTable)
    (vs : list Qc) :
  OBSERVATORY_NAME observation_table = "HESS" →
  map aeff_LO_THRES (rows observation_table) = map TeV_card vs →
  _get_min_energy_threshold observation_table =
    Ok (mkQuantity (capped_min (qz 999) vs) "TeV").
Proof.
  intros Hname Hcards. unfold _get_min_energy_threshold, storage_scheme.
  rewrite Hname. simpl. by apply min_energy_threshold_loop_TeV.
Qed.

Lemma qz_neq_0 (n : Z) : n ≠ 0 → qz n ≠ 0%Qc.
Proof.
  intros Hn H. apply Q2Qc_eq_iff in H. unfold Qeq in H. simpl in H. lia.
Qed.

Lemma seqZ_last (n : Z) : 0 ≤ n → last (seqZ 0 (n + 1)) = Some n.
Proof.
  intros Hn. rewrite seqZ_app by lia.
  assert (seqZ (0 + n) 1 = [n]) as ->
    by (rewrite seqZ_cons, seqZ_nil by lia; f_equal; lia).
  apply last_snoc.
Qed.

(** The logarithmic edges run from [exp (log lo)] to [exp (log hi)]. *)
Lemma log_edges_ends (np_log np_exp : Qc → Qc) (n : Z) (lo hi : Qc) :
  0 < n →
  head (log_edges np_log np_exp n lo hi) = Some (np_exp (np_log lo)) ∧
  last (log_edges np_log np_exp n lo hi) = Some (np_exp (np_log hi)).
Proof.
  intros Hn. unfold log_edges, np_arange. split.
  - rewrite seqZ_cons by lia. simpl. do 2 f_equal.
    change (qz 0) with 0%Qc. ring.
  - change (map ?f ?l) with (f <$> l). rewrite fmap_last, seqZ_last by lia.
    simpl. do 2 f_equal. field. apply qz_neq_0. lia.
Qed.

(** The energy edges of the binning run from the minimum energy that the
    method gives to 80 TeV. *)
Lemma define_cube_binning_energy_range
    (np_log np_exp : Qc → Qc) (deg_per_rad : Qc)
    (observation_table : ObservationTable) (do_not_fill : bool)
    (method : string) (energy_min : Quantity) :
  energy_min_of observation_table method = Ok energy_min →
  ∃ m, define_cube_binning np_log np_exp deg_per_rad observation_table
         do_not_fill method = Ok m ∧
    head (energy_edges (counts_cube m)) =
      Some (np_exp (np_log (value energy_min))) ∧
    last (energy_edges (counts_cube m)) = Some (np_exp (np_log (qz 80))).
Proof.
  intros Hmin. unfold define_cube_binning.
  pose proof (bg_cube_shape_bounds (len (rows observation_table))) as Hb.
  destruct (bg_cube_shape _) as [[ne ny] nx]. simpl in Hb.
  destruct Hb as (He & Hy & Hx); [unfold len; lia|].
  rewrite Hmin. cbn [mbind result_bind].
  edestruct set_cube_binning_Ok as (d & _ & ->);
    [| | |eexists; split; [done|]; by apply log_edges_ends; lia];
    unfold log_edges, linear_edges; rewrite len_map, len_np_arange; lia.
Qed.

(** C8: a single observation whose LO_THRES card has no unit annotation
    makes both the scan for the minimum threshold and the fill raise
    [UnboundLocalError]: no unit was ever assigned and there is no
    fallback. *)
Theorem threshold_unit_missing_raises (v livetime : Qc)
    (events : list event) (self : CubeBackgroundModel) :
  let observation_table :=
    mkTable "HESS" [mkObs (Some (mkCard v "")) livetime events] in
  _get_min_energy_threshold observation_table = Err UnboundLocalError ∧
  fill_events self observation_table = Err UnboundLocalError.
Proof. split; reflexivity. Qed.

Lemma capped_min_is_minimum (cap v0 : Qc) (vs : list Qc) :
  v0 ∈ vs → (v0 ≤ cap)%Qc →
  capped_min cap vs ∈ vs ∧ ∀ v, v ∈ vs → (capped_min cap vs ≤ v)%Qc.
Proof.
  intros Hin Hle.
  destruct (capped_min_spec cap vs) as (_ & Hall & [Hcap|Hmem]);
    [|by split].
  split; [|done].
  assert (v0 = capped_min cap vs) as <-; [|done].
  apply Qcle_antisym; [by rewrite Hcap|by apply Hall].
Qed.

(** C5: for a group of the H.E.S.S. array whose headers give their
    thresholds in TeV, one of them at most 999 TeV, the scan answers the
    minimum of the thresholds of the group; [define_cube_binning] with
    the method 'michi' lets the energy edges run from that minimum to
    80 TeV, and with any other method from 0.1 TeV to 80 TeV. *)
Theorem define_cube_binning_energy_lower_bound
    (np_log np_exp : Qc → Qc) (deg_per_rad : Qc)
    (observation_table : ObservationTable) (do_not_fill : bool)
    (vs : list Qc) (v0 : Qc) :
  OBSERVATORY_NAME observation_table = "HESS" →
  map aeff_LO_THRES (rows observation_table) = map TeV_card vs →
  v0 ∈ vs → (v0 ≤ qz 999)%Qc →
  ∃ energy_min,
    energy_min ∈ vs ∧
    (∀ v, v ∈ vs → (energy_min ≤ v)%Qc) ∧
    _get_min_energy_threshold observation_table =
      Ok (mkQuantity energy_min "TeV") ∧
    (∃ m, define_cube_binning np_log np_exp deg_per_rad observation_table
            do_not_fill "michi" = Ok m ∧
          head (energy_edges (counts_cube m)) =
            Some (np_exp (np_log energy_min)) ∧
          last (energy_edges (counts_cube m)) =
            Some (np_exp (np_log (qz 80)))) ∧
    (∀ method, method ≠ "michi" →
       ∃ m, define_cube_binning np_log np_exp deg_per_rad observation_table
              do_not_fill method = Ok m ∧
            head (energy_edges (counts_cube m)) =
              Some (np_exp (np_log (qfrac 1 10))) ∧
            last (energy_edges (counts_cube m)) =
              Some (np_exp (np_log (qz 80)))).
Proof.
  intros Hname Hcards Hin Hle.
  destruct (capped_min_is_minimum (qz 999) v0 vs Hin Hle) as [Hmem Hmin].
  pose proof (get_min_energy_threshold_TeV _ _ Hname Hcards) as Hscan.
  exists (capped_min (qz 999) vs).
  split; [done|]. split; [done|]. split; [done|]. split.
  - apply (define_cube_binning_energy_range np_log np_exp deg_per_rad
             observation_table do_not_fill "michi"
             (mkQuantity (capped_min (qz 999) vs) "TeV")).
    unfold energy_min_of. by rewrite bool_decide_eq_true_2.
  - intros method Hmethod.
    apply (define_cube_binning_energy_range np_log np_exp deg_per_rad
             observation_table do_not_fill method
             (mkQuantity (qfrac 1 10) "TeV")).
    unfold energy_min_of. by rewrite bool_decide_eq_false_2.
Qed.

Lemma define_cube_binning_energy_lower_bound_witness :
  ∃ energy_min,
    energy_min ∈ [qfrac 1 2; qz 20] ∧
    (∀ v, v ∈ [qfrac 1 2; qz 20] → (energy_min ≤ v)%Qc) ∧
    _get_min_energy_threshold two_observations =
      Ok (mkQuantity energy_min "TeV") ∧
    (∃ m, define_cube_binning (fun q => q) (fun q => q) (qz 57)
            two_observations false "michi" = Ok m ∧
          head (energy_edges (counts_cube m)) = Some energy_min ∧
          last (energy_edges (counts_cube m)) = Some (qz 80)) ∧
    (∀ method, method ≠ "michi" →
       ∃ m, define_cube_binning (fun q => q) (fun q => q) (qz 57)
              two_observations false method = Ok m ∧
            head (energy_edges (counts_cube m)) = Some (qfrac 1 10) ∧
            last (energy_edges (counts_cube m)) = Some (qz 80)).
Proof.
  apply (define_cube_binning_energy_lower_bound (fun q => q) (fun q => q)
           (qz 57) two_observations false [qfrac 1 2; qz 20] (qfrac 1 2)).
  - reflexivity.
  - reflexivity.
  - constructor.
  - vm_compute. discriminate.
Defined.

(** ** Reading a model *)

Section ReadingFacts.

Variables HDUList scheme_dict : Type.
Variable fits_open : string → result HDUList.
Variable Cube_define_scheme : string → result scheme_dict.
Variable Cube_read : string → string → string → result Cube.

Local Abbreviation read_file :=
  (read HDUList scheme_dict fits_open Cube_define_scheme Cube_read).
Local Abbreviation schemes_ok :=
  (schemes_defined scheme_dict Cube_define_scheme).
Local Abbreviation unopened_is_unreadable :=
  (unopened_unreadable HDUList fits_open Cube_read).

(** What [read] does once the schemes are defined: it opens the file,
    tries the two optional cubes and reads the background cube. *)
Lemma read_unfold (filename format : string) :
  schemes_ok →
  read_file filename format =
    (hdu ← fits_open filename;
     cubes ← try_except
               (c ← Cube_read filename format "bg_counts_cube";
                l ← Cube_read filename format "bg_livetime_cube";
                mret (c, l))
               (Ok (empty_Cube, empty_Cube));
     b ← Cube_read filename format "bg_cube";
     mret (mkModel cubes.1 cubes.2 b)).
Proof.
  intros (H1 & H2 & H3). unfold read.
  destruct (fits_open filename); [|done]. cbn [mbind result_bind].
  destruct (Cube_define_scheme "bg_counts_cube"); [|done].
  destruct (Cube_define_scheme "bg_livetime_cube"); [|done].
  destruct (Cube_define_scheme "bg_cube"); [|done].
  reflexivity.
Qed.

(** The handler runs whenever one of the two optional cubes fails. *)
Lemma try_except_counts_livetime (filename format : string) (e : exn) :
  Cube_read filename format "bg_counts_cube" = Err e ∨
  (is_Ok (Cube_read filename format "bg_counts_cube") = true ∧
   Cube_read filename format "bg_livetime_cube" = Err e) →
  try_except
    (c ← Cube_read filename format "bg_counts_cube";
     l ← Cube_read filename format "bg_livetime_cube";
     mret (c, l))
    (Ok (empty_Cube, empty_Cube)) = Ok (empty_Cube, empty_Cube).
Proof.
  intros [-> | [Hc ->]]; [done|].
  by destruct (Cube_read filename format "bg_counts_cube").
Qed.

(** C10: whatever error the reading of the counts cube or of the
    livetime cube raises, [read] does not pass it on: when the background
    cube can be read, [read] answers the model with two empty cubes and
    that background cube; [read] fails only when the background cube
    cannot be read, with the error of that reading or, for a file that
    cannot even be opened, with the error of opening it. *)
Theorem read_swallows_counts_and_livetime_errors
    (filename format : string) (e : exn) :
  schemes_ok →
  unopened_is_unreadable filename format →
  Cube_read filename format "bg_counts_cube" = Err e ∨
  (is_Ok (Cube_read filename format "bg_counts_cube") = true ∧
   Cube_read filename format "bg_livetime_cube" = Err e) →
  match Cube_read filename format "bg_cube" with
  | Ok background =>
      read_file filename format =
        Ok (mkModel empty_Cube empty_Cube background)
  | Err e_background =>
      ∃ e_read, read_file filename format = Err e_read ∧
        (e_read = e_background ∨ fits_open filename = Err e_read)
  end.
Proof.
  intros Hschemes Hopen Hfail. rewrite read_unfold by done.
  unfold unopened_unreadable in Hopen.
  destruct (fits_open filename) as [hdu|e_open]; cbn [mbind result_bind].
  - rewrite (try_except_counts_livetime _ _ _ Hfail).
    cbn [mbind result_bind].
    destruct (Cube_read filename format "bg_cube") as [b|e_bg]; [done|].
    exists e_bg. split; [done|by left].
  - specialize (Hopen eq_refl).
    destruct (Cube_read filename format "bg_cube") as [b|e_bg]; [done|].
    exists e_open. split; [done|by right].
Qed.

End ReadingFacts.

Lemma read_swallows_counts_and_livetime_errors_witness :
  schemes_defined Datatypes.unit (fun _ => Ok tt) ∧
  unopened_unreadable Datatypes.unit (fun _ => Ok tt)
    (background_only_file KeyboardInterrupt empty_Cube)
    "bg_cube_model.fits" "table" ∧
  read Datatypes.unit Datatypes.unit (fun _ => Ok tt) (fun _ => Ok tt)
       (background_only_file KeyboardInterrupt empty_Cube)
       "bg_cube_model.fits" "table" =
    Ok (mkModel empty_Cube empty_Cube empty_Cube).
Proof.
  split; [repeat split|]. split; [by intros H|].
  apply (read_swallows_counts_and_livetime_errors
           Datatypes.unit Datatypes.unit (fun _ => Ok tt) (fun _ => Ok tt)
           (background_only_file KeyboardInterrupt empty_Cube)
           "bg_cube_model.fits" "table" KeyboardInterrupt).
  - repeat split.
  - by intros H.
  - left. reflexivity.
Defined.

(** ** Loops *)

Lemma for_each_app {S} (l1 l2 : list Z) (body : Z → S → result S) (s : S) :
  for_each (l1 ++ l2) body s = (s' ← for_each l1 body s; for_each l2 body s').
Proof.
  revert s. induction l1 as [|i l1 IH]; intros s; simpl; [done|].
  destruct (body i s); simpl; [apply IH | done].
Qed.

Lemma seqZ_snoc (n : nat) :
  seqZ 0 (Z.of_nat (S n)) = seqZ 0 (Z.of_nat n) ++ [Z.of_nat n].
Proof.
  replace (Z.of_nat (S n)) with (Z.of_nat n + 1) by lia.
  rewrite seqZ_app by lia. f_equal.
Qed.

(** A loop that overwrites entry [i] with [F i] of its old value, for
    every index in turn, maps [F] over the array. *)
Lemma for_each_overwrite {A} (F : nat → A → A)
    (body : Z → list A → result (list A)) (d : list A) (n : nat) :
  (∀ (i : nat) (d' : list A) (x : A),
     (i < n)%nat → d' !! i = Some x →
     body (Z.of_nat i) d' = Ok (<[i := F i x]> d')) →
  (n ≤ length d)%nat →
  for_each (seqZ 0 (Z.of_nat n)) body d = Ok (imap F (take n d) ++ drop n d).
Proof.
  induction n as [|n IH]; intros Hbody Hn.
  - by rewrite take_0, drop_0.
  - rewrite seqZ_snoc, for_each_app, IH; [|intros; apply Hbody; [lia|done]|lia].
    simpl.
    destruct (lookup_lt_is_Some_2 d n) as [x Hx]; [lia|].
    rewrite (Hbody n _ x); [|lia|].
    2:{ rewrite lookup_app_r; rewrite length_imap, length_take_le by lia;
          [|done].
        by rewrite Nat.sub_diag, lookup_drop, Nat.add_0_r. }
    f_equal.
    rewrite (drop_S d x n) by done.
    rewrite insert_app_r_alt; rewrite length_imap, length_take_le by lia;
      [|done].
    rewrite Nat.sub_diag. simpl.
    rewrite (take_S_r _ _ x) by done.
    rewrite imap_app. simpl. rewrite length_take_le by lia.
    rewrite Nat.add_0_r, <- app_assoc. done.
Qed.

Lemma for_each_overwrite_all {A} (F : nat → A → A)
    (body : Z → list A → result (list A)) (d : list A) :
  (∀ (i : nat) (d' : list A) (x : A),
     (i < length d)%nat → d' !! i = Some x →
     body (Z.of_nat i) d' = Ok (<[i := F i x]> d')) →
  for_each (seqZ 0 (Z.of_nat (length d))) body d = Ok (imap F d).
Proof.
  intros Hbody. rewrite (for_each_overwrite F) by done.
  by rewrite firstn_all, drop_all, app_nil_r.
Qed.

Lemma np_arange_n_bins (edges : list Qc) :
  np_arange (len edges - 1) = seqZ 0 (Z.of_nat (n_bins edges)).
Proof.
  unfold np_arange, seqZ, len, n_bins. do 2 f_equal. lia.
Qed.

(** ** The smoothing loop *)

Lemma smooth_pass_lookup (i : nat) (d : cube_data) (x : image) :
  d !! i = Some x →
  smooth_pass (Z.of_nat i) d = Ok (<[i := smooth_once x]> d).
Proof.
  intros Hx. unfold smooth_pass, getitem. rewrite Nat2Z.id, Hx. done.
Qed.

Lemma smooth_times_S (n : nat) (x : image) :
  smooth_times (S n) x = smooth_times n (smooth_once x).
Proof. unfold smooth_times. by rewrite Nat.iter_succ_r. Qed.

Lemma smooth_passes_lookup (l : list Z) (i : nat) (d : cube_data)
    (x : image) :
  d !! i = Some x →
  for_each l (fun _ d' => smooth_pass (Z.of_nat i) d') d =
    Ok (<[i := smooth_times (length l) x]> d).
Proof.
  revert d x. induction l as [|j l IH]; intros d x Hx.
  - simpl. by rewrite list_insert_id.
  - cbn [for_each length]. rewrite (smooth_pass_lookup i d x Hx).
    cbn [mbind result_bind].
    rewrite (IH _ (smooth_once x)).
    + by rewrite list_insert_insert_eq, smooth_times_S.
    + apply list_lookup_insert_eq. by eapply lookup_lt_Some.
Qed.

Lemma smooth_images_spec (m : CubeBackgroundModel) :
  length (data (background_cube m)) =
    n_bins (energy_edges (background_cube m)) →
  smooth_images m =
    Ok (map (smooth_times
               (Z.to_nat (n_smooth_of (np_sum (data (counts_cube m))))))
            (data (background_cube m))).
Proof.
  intros Hlen. unfold smooth_images.
  rewrite np_arange_n_bins, <- Hlen.
  rewrite (for_each_overwrite_all
             (const (smooth_times
                (Z.to_nat (n_smooth_of (np_sum (data (counts_cube m)))))))).
  - by rewrite imap_const.
  - intros i d' x _ Hx. rewrite (smooth_passes_lookup _ i d' x Hx).
    unfold np_arange. by rewrite length_seqZ.
Qed.

Lemma n_smooth_of_passes (q : Qc) :
  Z.to_nat (n_smooth_of (Fin q)) = passes q.
Proof.
  unfold n_smooth_of, passes, xge, xlt.
  case_bool_decide as Hge; [done|].
  case_bool_decide as H0; [|exfalso; apply H0; by apply Qcnot_le_lt].
  simpl. by case_bool_decide.
Qed.

(** C7: the number of passes over every image follows from the sum of
    the counts cube alone: 3 passes from 1e6 counts on, 4 passes from 1e5
    counts up to 1e6, 5 passes below 1e5; totals of 1,000,000, 999,999 and
    99,999 counts give 3, 4 and 5 passes. *)
Theorem smooth_passes_from_total_counts (m : CubeBackgroundModel) (q : Qc) :
  np_sum (data (counts_cube m)) = Fin q →
  length (data (background_cube m)) =
    n_bins (energy_edges (background_cube m)) →
  ∃ n : nat,
    smooth_images m = Ok (map (smooth_times n) (data (background_cube m))) ∧
    ((qz 1000000 ≤ q)%Qc → n = 3%nat) ∧
    ((qz 100000 ≤ q)%Qc ∧ (q < qz 1000000)%Qc → n = 4%nat) ∧
    ((q < qz 100000)%Qc → n = 5%nat) ∧
    n_smooth_of (Fin (qz 1000000)) = 3 ∧
    n_smooth_of (Fin (qz 999999)) = 4 ∧
    n_smooth_of (Fin (qz 99999)) = 5.
Proof.
  intros Hsum Hlen. exists (passes q).
  split; [by rewrite smooth_images_spec, Hsum, n_smooth_of_passes|].
  unfold passes.
  split; [intros H; by rewrite bool_decide_eq_true_2|].
  split; [intros [H1 H2]; apply Qclt_not_le in H2;
          by rewrite bool_decide_eq_false_2, bool_decide_eq_true_2|].
  split; [|by vm_compute].
  intros H.
  assert (¬ (qz 100000 ≤ q)%Qc) by by apply Qclt_not_le.
  assert (¬ (qz 1000000 ≤ q)%Qc).
  { apply Qclt_not_le. eapply Qclt_trans; [done|]. by vm_compute. }
  by rewrite !bool_decide_eq_false_2.
Qed.

Lemma smooth_passes_from_total_counts_witness :
  ∃ n : nat,
    smooth_images (two_pixel_model 999999 1 0) =
      Ok (map (smooth_times n)
              (data (background_cube (two_pixel_model 999999 1 0)))) ∧
    n = 4%nat.
Proof.
  destruct (smooth_passes_from_total_counts (two_pixel_model 999999 1 0)
              (qz 999999)) as (n & Hs & _ & H4 & _).
  - apply (f_equal Fin). by apply Qc_is_canon.
  - reflexivity.
  - exists n. split; [exact Hs|]. apply H4. by vm_compute.
Defined.

(** C2: every image of the background cube is replaced by the image
    convolved with the kernel k5a as many times as the counts demand, each
    image by itself; the convolution is scipy's with its default boundary
    mode, which mirrors the image about its edges. *)
Theorem smooth_images_convolves_each_image (m : CubeBackgroundModel) :
  length (data (background_cube m)) =
    n_bins (energy_edges (background_cube m)) →
  let n := Z.to_nat (n_smooth_of (np_sum (data (counts_cube m)))) in
  ∃ smoothed,
    smooth_images m = Ok smoothed ∧
    length smoothed = length (data (background_cube m)) ∧
    ∀ (i_energy : nat) (im : image),
      data (background_cube m) !! i_energy = Some im →
      smoothed !! i_energy =
        Some (Nat.iter n (fun im' => ndimage_convolve im' kernel) im).
Proof.
  intros Hlen n. eexists. split; [by apply smooth_images_spec|].
  split; [by rewrite length_map|].
  intros i im Him.
  rewrite (list_lookup_fmap (smooth_times n)), Him. done.
Qed.

Lemma smooth_images_convolves_each_image_witness :
  ∃ smoothed,
    smooth_images (two_pixel_model 1000000 1 0) = Ok smoothed ∧
    smoothed !! 0%nat =
      Some (Nat.iter 3 (fun im' => ndimage_convolve im' kernel)
                     [[Fin (qz 1); Fin (qz 0)]]).
Proof.
  destruct (smooth_images_convolves_each_image
              (two_pixel_model 1000000 1 0) eq_refl) as (s & Hs & _ & Hi).
  exists s. split; [exact Hs|]. exact (Hi 0%nat _ eq_refl).
Defined.

(** C2, as the specification words it, fails on an image of two pixels:
    with zero padding the pixel values after the passes would differ. *)
Lemma smooth_images_not_zero_padded :
  ¬ (∀ m : CubeBackgroundModel,
       length (data (background_cube m)) =
         n_bins (energy_edges (background_cube m)) →
       smooth_images m =
         Ok (map (Nat.iter
                    (Z.to_nat (n_smooth_of (np_sum (data (counts_cube m)))))
                    (fun im => convolve_zero_padded im kernel))
                 (data (background_cube m)))).
Proof.
  intros H. specialize (H (two_pixel_model 1000000 1 0) eq_refl).
  vm_compute in H. discriminate H.
Qed.

(** ** Entries of arrays *)

Lemma lookup_map {A B} (f : A → B) (l : list A) (i : nat) :
  map f l !! i = f <$> l !! i.
Proof. apply (list_lookup_fmap f l i). Qed.

Lemma at3_zip_with (f : xval → xval → xval) (a b : cube_data) (e y x : nat) :
  at3 (zip_with (zip_with (zip_with f)) a b) e y x =
    (va ← at3 a e y x; vb ← at3 b e y x; Some (f va vb)).
Proof.
  unfold at3. rewrite lookup_zip_with.
  destruct (a !! e) as [ia|]; simpl; [|done].
  destruct (b !! e) as [ib|]; simpl;
    [|by destruct (ia !! y) as [ra|]; simpl; [destruct (ra !! x)|]].
  rewrite lookup_zip_with.
  destruct (ia !! y) as [ra|]; simpl; [|done].
  destruct (ib !! y) as [rb|]; simpl; [|by destruct (ra !! x)].
  by rewrite lookup_zip_with.
Qed.

Lemma shape_of_at3 (a b : cube_data) (e y x : nat) :
  shape_of a = shape_of b →
  is_Some (at3 a e y x) → is_Some (at3 b e y x).
Proof.
  unfold shape_of, at3. intros Hs [v Hv].
  assert (He : (map length <$> a !! e) = (map length <$> b !! e)).
  { rewrite <- !lookup_map. by rewrite Hs. }
  destruct (a !! e) as [ia|]; simpl in *; [|done].
  destruct (b !! e) as [ib|]; simpl in *; [|done].
  injection He as He.
  assert (Hy : (length <$> ia !! y) = (length <$> ib !! y)).
  { rewrite <- !lookup_map. by rewrite He. }
  destruct (ia !! y) as [ra|]; simpl in *; [|done].
  destruct (ib !! y) as [rb|]; simpl in *; [|done].
  injection Hy as Hy.
  apply lookup_lt_is_Some. rewrite <- Hy. by eapply lookup_lt_Some.
Qed.

Lemma elementwise_Ok (f : xval → xval → xval) (a b d : cube_data) :
  elementwise f a b = Ok d ↔
  shape_of a = shape_of b ∧ d = zip_with (zip_with (zip_with f)) a b.
Proof.
  unfold elementwise. case_bool_decide; [|by split; [|intros []]].
  split; [by intros [= <-] | by intros [_ ->]].
Qed.

(** ** Livetime *)

Lemma xmul_of_bool (q : Qc) (b : bool) :
  xmul (Fin q) (of_bool b) = if b then Fin q else Fin 0%Qc.
Proof.
  destruct b; simpl; f_equal; ring.
Qed.

Lemma at3_livetime_mask (c : Cube) (livetime threshold : Qc) (e y x : nat)
    (w : xval) :
  at3 (livetime_mask c livetime threshold) e y x = Some w →
  ∃ energy_max, energy_edges c !! S e = Some energy_max ∧
    w = if bool_decide (threshold < energy_max)%Qc then Fin livetime
        else Fin 0%Qc.
Proof.
  unfold at3, livetime_mask, from1. rewrite lookup_map, lookup_drop.
  simpl. destruct (energy_edges c !! S e) as [energy_max|]; simpl; [|done].
  intros Hw. exists energy_max. split; [done|].
  destruct (replicate _ _ !! y) as [row|] eqn:Hrow; simpl in Hw; [|done].
  apply lookup_replicate in Hrow as [-> _].
  apply lookup_replicate in Hw as [-> _].
  apply xmul_of_bool.
Qed.

(** What one turn of the loop of [fill_events] does. *)
Lemma fill_observation_Ok (u u' : option string)
    (m m' : CubeBackgroundModel) (obs : observation) :
  fill_observation (u, m) obs = Ok (u', m') →
  ∃ card hist,
    aeff_LO_THRES obs = Some card ∧
    np_histogramdd
      (select_energy (event_list obs)
         (LO_THRES card, (LO_THRES card * qz 1000000)%Qc))
      (energy_edges (counts_cube m)) (coordy_edges (counts_cube m))
      (coordx_edges (counts_cube m)) = Ok hist ∧
    shape_of (data (counts_cube m)) =
      shape_of (map (map (map of_count)) hist) ∧
    shape_of (data (livetime_cube m)) =
      shape_of (livetime_mask (counts_cube m)
                  (observation_live_time_duration obs) (LO_THRES card)) ∧
    m' = mkModel
           (with_data (counts_cube m)
              (zip_with (zip_with (zip_with xadd)) (data (counts_cube m))
                 (map (map (map of_count)) hist)))
           (with_data (livetime_cube m)
              (zip_with (zip_with (zip_with xadd)) (data (livetime_cube m))
                 (livetime_mask (counts_cube m)
                    (observation_live_time_duration obs) (LO_THRES card))))
           (background_cube m).
Proof.
  unfold fill_observation. cbn [fst snd].
  intros H. apply bind_Ok in H as ([u1 thr] & Hthr & H).
  apply bind_Ok in H as (hist & Hhist & H).
  apply bind_Ok in H as (cd & Hcd & H).
  apply bind_Ok in H as (ld & Hld & H).
  injection H as <- <-.
  unfold read_energy_threshold in Hthr.
  destruct (aeff_LO_THRES obs) as [card|]; [|done].
  cbn [mbind result_bind] in Hthr.
  destruct (if bool_decide (LO_THRES_comment card = "[TeV]")
            then Some "TeV" else u) as [un|]; [|done].
  injection Hthr as <- <-. cbn [fst snd value] in *.
  apply elementwise_Ok in Hcd as [Hcs ->].
  apply elementwise_Ok in Hld as [Hls ->].
  exists card, hist. done.
Qed.

Lemma fill_loop_livetime (l : list observation) (u u' : option string)
    (m m' : CubeBackgroundModel) (e y x : nat) (v : xval) (energy_max : Qc) :
  fill_loop l (u, m) = Ok (u', m') →
  at3 (data (livetime_cube m)) e y x = Some v →
  energy_edges (counts_cube m) !! S e = Some energy_max →
  at3 (data (livetime_cube m')) e y x =
    Some (foldl xadd v (map (livetime_share energy_max) l)).
Proof.
  revert u m v. induction l as [|obs l IH]; intros u m v Hfill Hv Hedge.
  - injection Hfill as <- <-. done.
  - cbn [fill_loop] in Hfill.
    apply bind_Ok in Hfill as ([u1 m1] & Hobs & Hfill).
    apply fill_observation_Ok in Hobs
      as (card & hist & Hcard & _ & _ & Hshape & ->).
    destruct (shape_of_at3 _ _ e y x Hshape) as [w Hw]; [by eexists|].
    destruct (at3_livetime_mask _ _ _ _ _ _ _ Hw) as (emax & Hemax & ->).
    assert (emax = energy_max) as -> by congruence.
    cbn [map foldl].
    eapply (IH u1 _).
    + exact Hfill.
    + cbn [livetime_cube with_data data].
      rewrite at3_zip_with, Hv, Hw. simpl.
      unfold livetime_share. by rewrite Hcard.
    + done.
Qed.

(** C3: after [fill_events], the livetime of every 3-D bin is its
    livetime before plus, for each observation of the group in turn, the
    full livetime of the observation when the upper energy edge of the bin
    exceeds the threshold of the observation and zero otherwise, whatever
    the spatial position (y, x) of the bin. *)
Theorem fill_events_livetime (self self' : CubeBackgroundModel)
    (observation_table : ObservationTable) (e y x : nat) (v : xval)
    (energy_max : Qc) :
  fill_events self observation_table = Ok self' →
  at3 (data (livetime_cube self)) e y x = Some v →
  energy_edges (counts_cube self) !! S e = Some energy_max →
  at3 (data (livetime_cube self')) e y x =
    Some (foldl xadd v
            (map (fun obs =>
                    match aeff_LO_THRES obs with
                    | Some card =>
                        if bool_decide (LO_THRES card < energy_max)%Qc
                        then Fin (observation_live_time_duration obs)
                        else Fin 0%Qc
                    | None => Fin 0%Qc
                    end)
                 (rows observation_table))).
Proof.
  unfold fill_events. intros H Hv Hedge.
  apply bind_Ok in H as (sch & _ & H).
  apply bind_Ok in H as ([u' m'] & Hloop & [= <-]).
  by apply (fill_loop_livetime _ None u' self m').
Qed.

Lemma fill_events_livetime_witness :
  ∃ self',
    fill_events (two_pixel_model 0 0 0) two_observations = Ok self' ∧
    at3 (data (livetime_cube self')) 0 0 1 =
      Some (xadd (xadd (Fin (qz 1)) (Fin (qz 1800))) (Fin 0%Qc)).
Proof.
  eexists. split.
  - vm_compute. reflexivity.
  - apply (fill_events_livetime (two_pixel_model 0 0 0) _ two_observations
             0 0 1 (Fin (qz 1)) (qz 10)).
    + vm_compute. reflexivity.
    + reflexivity.
    + reflexivity.
Defined.

(** ** Shapes *)

Lemma shape_of_zip_with (f : xval → xval → xval) (a b : cube_data) :
  shape_of a = shape_of b →
  shape_of (zip_with (zip_with (zip_with f)) a b) = shape_of a.
Proof.
  unfold shape_of. revert b. induction a as [|ia a IH]; intros [|ib b] H;
    simplify_eq/=; [done|].
  f_equal; [|by apply IH].
  clear IH H0. revert ib H. induction ia as [|ra ia IH]; intros [|rb ib] H;
    simplify_eq/=; [done|].
  f_equal; [|by apply IH].
  rewrite length_zip_with. lia.
Qed.

Lemma shape_of_length (a b : cube_data) :
  shape_of a = shape_of b → length a = length b.
Proof.
  unfold shape_of. intros H. apply (f_equal length) in H.
  by rewrite !length_map in H.
Qed.

Lemma shape_of_replicate (ne ny nx : nat) (v : xval) :
  has_shape ne ny nx (replicate ne (replicate ny (replicate nx v))).
Proof.
  unfold has_shape, shape_of.
  change (map (map length)) with (fmap (M:=list) (fmap (M:=list) (length (A:=xval)))).
  rewrite fmap_replicate. f_equal.
  rewrite fmap_replicate. f_equal.
  apply length_replicate.
Qed.

Lemma length_deltas (edges : list Qc) :
  length (zip_with Qcminus (from1 edges) (upto_last edges)) = n_bins edges.
Proof.
  unfold from1, upto_last, n_bins.
  rewrite length_zip_with, length_drop, length_take. lia.
Qed.

Lemma shape_of_bin_area (sr_per_deg2 : Qc) (c : Cube) :
  has_shape (n_bins (energy_edges c)) (n_bins (coordy_edges c))
            (n_bins (coordx_edges c)) (bin_area sr_per_deg2 c).
Proof.
  unfold has_shape, shape_of, bin_area.
  rewrite <- (length_deltas (coordy_edges c)).
  rewrite <- (length_deltas (coordx_edges c)).
  assert (Hup : length (upto_last (energy_edges c)) = n_bins (energy_edges c)).
  { unfold upto_last, n_bins. rewrite length_take. lia. }
  rewrite <- Hup.
  generalize (upto_last (energy_edges c)) as le.
  generalize (zip_with Qcminus (from1 (coordy_edges c))
                (upto_last (coordy_edges c))) as ly.
  generalize (zip_with Qcminus (from1 (coordx_edges c))
                (upto_last (coordx_edges c))) as lx.
  intros lx ly le. induction le as [|? le IH]; simpl; [done|].
  f_equal; [|done]. clear.
  induction ly as [|? ly IH]; simpl; [done|].
  f_equal; [|done]. by rewrite length_map.
Qed.

Lemma shape_of_ndimage_convolve (im : image) (weights : list (list Z)) :
  map length (ndimage_convolve im weights) = map length im.
Proof.
  unfold ndimage_convolve.
  apply list_eq. intros i.
  rewrite !lookup_map, list_lookup_imap.
  destruct (im !! i); simpl; [|done].
  by rewrite length_imap.
Qed.

Lemma shape_of_smooth_times (n : nat) (im : image) :
  map length (smooth_times n im) = map length im.
Proof.
  unfold smooth_times. induction n as [|n IH]; simpl; [done|].
  unfold smooth_once at 1. by rewrite shape_of_ndimage_convolve.
Qed.

Lemma shape_of_smoothed_data (m : CubeBackgroundModel) :
  shape_of (smoothed_data m) = shape_of (data (background_cube m)).
Proof.
  unfold shape_of, smoothed_data. rewrite map_map.
  apply map_ext. intros im. apply shape_of_smooth_times.
Qed.

Lemma shape_of_scale (f : xval) (im : image) :
  map length (scale f im) = map length im.
Proof.
  unfold scale. rewrite map_map. apply map_ext. intros row.
  apply length_map.
Qed.

Lemma shape_of_scaled_data (sr_per_deg2 : Qc) (m : CubeBackgroundModel) :
  shape_of (scaled_data sr_per_deg2 m) = shape_of (data (background_cube m)).
Proof.
  rewrite <- shape_of_smoothed_data. unfold shape_of, scaled_data.
  apply list_eq. intros i.
  rewrite !lookup_map, list_lookup_imap.
  destruct (smoothed_data m !! i); simpl; [|done].
  by rewrite shape_of_scale.
Qed.

(** ** What [smooth] computes *)

Lemma integral_images_Ok (sr_per_deg2 : Qc) (c : Cube) (d : cube_data) :
  shape_of d = shape_of (bin_area sr_per_deg2 c) →
  integral_images d (bin_area sr_per_deg2 c) = Ok (integrals sr_per_deg2 c d).
Proof.
  intros Hs. unfold integral_images, elementwise.
  by rewrite bool_decide_eq_true_2.
Qed.

Lemma length_integrals (sr_per_deg2 : Qc) (c : Cube) (d : cube_data) :
  shape_of d = shape_of (bin_area sr_per_deg2 c) →
  length (integrals sr_per_deg2 c d) = length d.
Proof.
  intros Hs. unfold integrals.
  rewrite length_map, length_zip_with, <- (shape_of_length _ _ Hs). lia.
Qed.

Lemma scale_image_lookup (ratio : list xval) (i : nat) (d : cube_data)
    (x : image) (f : xval) :
  d !! i = Some x → ratio !! i = Some f →
  scale_image ratio (Z.of_nat i) d = Ok (<[i := scale f x]> d).
Proof.
  intros Hx Hf. unfold scale_image, getitem. by rewrite Nat2Z.id, Hx, Hf.
Qed.

Lemma smooth_spec (sr_per_deg2 : Qc) (m : CubeBackgroundModel) :
  shape_of (data (background_cube m)) =
    shape_of (bin_area sr_per_deg2 (background_cube m)) →
  smooth sr_per_deg2 m =
    Ok (mkModel (counts_cube m) (livetime_cube m)
                (with_data (background_cube m) (scaled_data sr_per_deg2 m))).
Proof.
  intros Hs.
  assert (Hlen : length (data (background_cube m)) =
                 n_bins (energy_edges (background_cube m))).
  { rewrite (shape_of_length _ _ Hs).
    pose proof (shape_of_bin_area sr_per_deg2 (background_cube m)) as Ha.
    apply (f_equal length) in Ha. unfold shape_of in Ha.
    by rewrite length_map, length_replicate in Ha. }
  assert (Hs' : shape_of (smoothed_data m) =
                shape_of (bin_area sr_per_deg2 (background_cube m)))
    by by rewrite shape_of_smoothed_data.
  unfold smooth.
  rewrite integral_images_Ok by done. cbn [mbind result_bind].
  rewrite smooth_images_spec by done. cbn [mbind result_bind].
  fold (smoothed_data m).
  rewrite integral_images_Ok by done. cbn [mbind result_bind].
  fold (scale_factors sr_per_deg2 m).
  rewrite np_arange_n_bins, <- Hlen.
  replace (length (data (background_cube m)))
    with (length (smoothed_data m))
    by (unfold smoothed_data; apply length_map).
  rewrite (for_each_overwrite_all
             (fun i im =>
                scale (default NaN (scale_factors sr_per_deg2 m !! i)) im)).
  - done.
  - intros i d' x Hi Hx.
    destruct (lookup_lt_is_Some_2 (scale_factors sr_per_deg2 m) i)
      as [f Hf].
    { unfold scale_factors.
      rewrite length_zip_with, !length_integrals by done.
      rewrite <- (shape_of_length _ _ (shape_of_smoothed_data m)). lia. }
    rewrite (scale_image_lookup _ i d' x f Hx Hf). by rewrite Hf.
Qed.

(** ** The shared binning *)

Lemma set_cube_binning_shared (x_edges y_edges e_edges : list Qc) (b : bool)
    (m : CubeBackgroundModel) :
  set_cube_binning x_edges y_edges e_edges b = Ok m →
  shared_binning m ∧ edges_of (counts_cube m) = (x_edges, y_edges, e_edges).
Proof.
  unfold set_cube_binning, np_zeros. case_bool_decide as Hneg; [done|].
  intros [= <-]. unfold shared_binning, binned, edges_of. simpl.
  assert (Hshape : has_shape (n_bins e_edges) (n_bins y_edges)
            (n_bins x_edges)
            (replicate (Z.to_nat (len e_edges - 1))
               (replicate (Z.to_nat (len y_edges - 1))
                  (replicate (Z.to_nat (len x_edges - 1)) (Fin 0%Qc))))).
  { replace (n_bins e_edges) with (Z.to_nat (len e_edges - 1))
      by (unfold n_bins, len; lia).
    replace (n_bins y_edges) with (Z.to_nat (len y_edges - 1))
      by (unfold n_bins, len; lia).
    replace (n_bins x_edges) with (Z.to_nat (len x_edges - 1))
      by (unfold n_bins, len; lia).
    apply shape_of_replicate. }
  done.
Qed.

Lemma fill_observation_shared (u u' : option string)
    (m m' : CubeBackgroundModel) (obs : observation) :
  fill_observation (u, m) obs = Ok (u', m') →
  shared_binning m →
  shared_binning m' ∧ edges_of (counts_cube m') = edges_of (counts_cube m).
Proof.
  intros Hobs (Hc & Hl & Hb).
  apply fill_observation_Ok in Hobs as (card & hist & _ & _ & Hcs & Hls & ->).
  unfold shared_binning, binned, has_shape, edges_of in *. simpl.
  destruct Hc as [_ Hc], Hl as [Hle Hl], Hb as [Hbe Hb].
  rewrite (shape_of_zip_with _ _ _ Hcs), (shape_of_zip_with _ _ _ Hls).
  done.
Qed.

Lemma fill_loop_shared (l : list observation) (u u' : option string)
    (m m' : CubeBackgroundModel) :
  fill_loop l (u, m) = Ok (u', m') →
  shared_binning m →
  shared_binning m' ∧ edges_of (counts_cube m') = edges_of (counts_cube m).
Proof.
  revert u m. induction l as [|obs l IH]; intros u m Hfill Hm.
  - by injection Hfill as <- <-.
  - cbn [fill_loop] in Hfill.
    apply bind_Ok in Hfill as ([u1 m1] & Hobs & Hfill).
    destruct (fill_observation_shared _ _ _ _ _ Hobs Hm) as [Hm1 He1].
    destruct (IH _ _ Hfill Hm1) as [Hm' He']. split; [done|congruence].
Qed.

Lemma shared_binning_background_shape (sr_per_deg2 : Qc)
    (m : CubeBackgroundModel) :
  shared_binning m →
  shape_of (data (background_cube m)) =
    shape_of (bin_area sr_per_deg2 (background_cube m)).
Proof.
  intros (_ & _ & [He Hb]). rewrite <- He in Hb.
  unfold has_shape, edges_of in Hb. simpl in Hb. rewrite Hb.
  symmetry. apply shape_of_bin_area.
Qed.

Lemma shape_of_grid3 (ne ny nx : nat) (f : nat → nat → nat → xval) :
  has_shape ne ny nx (grid3 ne ny nx f).
Proof.
  unfold has_shape, shape_of, grid3. rewrite map_map.
  apply list_eq. intros i. rewrite lookup_map.
  destruct (seq 0 ne !! i) as [i'|] eqn:Hi; simpl.
  - apply lookup_seq in Hi as [-> Hi]. rewrite lookup_replicate_2 by done.
    f_equal. rewrite map_map.
    apply list_eq. intros j. rewrite lookup_map.
    destruct (seq 0 ny !! j) as [j'|] eqn:Hj; simpl.
    + apply lookup_seq in Hj as [-> Hj]. rewrite lookup_replicate_2 by done.
      by rewrite length_map, length_seq.
    + symmetry. apply lookup_replicate_None. apply lookup_ge_None in Hj.
      rewrite length_seq in Hj. lia.
  - symmetry. apply lookup_replicate_None. apply lookup_ge_None in Hi.
    rewrite length_seq in Hi. lia.
Qed.

Lemma shape_of_counts (ne ny nx : nat) (f : nat → nat → nat → nat) :
  has_shape ne ny nx (map (map (map of_count)) (grid3 ne ny nx f)).
Proof.
  pose proof (shape_of_grid3 ne ny nx (fun i j k => of_count (f i j k))) as H.
  unfold has_shape, shape_of, grid3 in *.
  rewrite <- H. rewrite !map_map. apply map_ext. intros i.
  rewrite !map_map. apply map_ext. intros j. by rewrite !length_map.
Qed.

Lemma shape_of_livetime_mask (c : Cube) (livetime threshold : Qc) :
  has_shape (n_bins (energy_edges c)) (n_bins (coordy_edges c))
            (n_bins (coordx_edges c)) (livetime_mask c livetime threshold).
Proof.
  unfold has_shape, shape_of, livetime_mask, from1, n_bins.
  rewrite <- !length_drop, map_map.
  induction (drop 1 (energy_edges c)) as [|e l IH]; simpl; [done|].
  f_equal; [|done].
  change (map length) with (fmap (M:=list) (length (A:=xval))).
  rewrite fmap_replicate. by rewrite length_replicate.
Qed.

(** [fill_events] returns for a model with the shared binning and edges
    that increase, when every header gives its threshold in TeV. *)
Lemma fill_loop_returns (l : list observation) (vs : list Qc)
    (u : option string) (m : CubeBackgroundModel) :
  shared_binning m →
  strictly_increasing (energy_edges (counts_cube m)) = true →
  strictly_increasing (coordy_edges (counts_cube m)) = true →
  strictly_increasing (coordx_edges (counts_cube m)) = true →
  map aeff_LO_THRES l = map TeV_card vs →
  is_Ok (fill_loop l (u, m)) = true.
Proof.
  revert vs u m. induction l as [|obs l IH]; intros [|v vs] u m
    Hinv He Hy Hx Hcards; simplify_eq/=; [done|].
  destruct (fill_observation (u, m) obs) as [[u1 m1]|e] eqn:Hobs.
  - simpl. destruct (fill_observation_shared _ _ _ _ _ Hobs Hinv)
      as [Hinv1 Hedges].
    unfold edges_of in Hedges. injection Hedges as Hx1 Hy1 He1.
    eapply IH; [done| | | |done]; congruence.
  - exfalso. unfold fill_observation in Hobs. cbn [fst snd] in Hobs.
    rewrite H, read_energy_threshold_TeV in Hobs.
    cbn [mbind result_bind fst snd value] in Hobs.
    unfold np_histogramdd in Hobs. rewrite He, Hy, Hx in Hobs.
    cbn [andb mbind result_bind] in Hobs.
    destruct Hinv as ([_ Hc] & [Hle Hl] & _).
    unfold has_shape, edges_of in Hc, Hl. simpl in Hc, Hl.
    unfold elementwise in Hobs.
    rewrite (bool_decide_eq_true_2 (shape_of (data (counts_cube m)) = _))
      in Hobs by (rewrite Hc; symmetry; apply shape_of_counts).
    cbn [mbind result_bind] in Hobs.
    rewrite (bool_decide_eq_true_2 (shape_of (data (livetime_cube m)) = _))
      in Hobs by (rewrite Hl; symmetry; apply shape_of_livetime_mask).
    done.
Qed.

Lemma fill_events_returns (m : CubeBackgroundModel)
    (observation_table : ObservationTable) (vs : list Qc) :
  shared_binning m →
  strictly_increasing (energy_edges (counts_cube m)) = true →
  strictly_increasing (coordy_edges (counts_cube m)) = true →
  strictly_increasing (coordx_edges (counts_cube m)) = true →
  OBSERVATORY_NAME observation_table = "HESS" →
  map aeff_LO_THRES (rows observation_table) = map TeV_card vs →
  is_Ok (fill_events m observation_table) = true.
Proof.
  intros Hinv He Hy Hx Hname Hcards. unfold fill_events, storage_scheme.
  rewrite Hname. simpl.
  pose proof (fill_loop_returns _ vs None m Hinv He Hy Hx Hcards) as Hloop.
  by destruct (fill_loop _ _).
Qed.

(** C9: a model built by [set_cube_binning], and so by
    [define_cube_binning], has three cubes with the same energy, Y and X
    edges, each with a data array of the shape (energy bins, Y bins, X
    bins); [fill_events] and [smooth] keep that, and keep the edges as they
    are; under it [smooth] always returns. *)
Theorem shared_binning_invariant :
  (∀ x_edges y_edges e_edges do_not_fill m,
     set_cube_binning x_edges y_edges e_edges do_not_fill = Ok m →
     shared_binning m ∧
     edges_of (counts_cube m) = (x_edges, y_edges, e_edges)) ∧
  (∀ np_log np_exp deg_per_rad observation_table do_not_fill method m,
     define_cube_binning np_log np_exp deg_per_rad observation_table
       do_not_fill method = Ok m →
     shared_binning m) ∧
  (∀ self observation_table self',
     shared_binning self →
     fill_events self observation_table = Ok self' →
     shared_binning self' ∧
     edges_of (counts_cube self') = edges_of (counts_cube self)) ∧
  (∀ sr_per_deg2 self,
     shared_binning self →
     ∃ self', smooth sr_per_deg2 self = Ok self' ∧
       shared_binning self' ∧
       edges_of (counts_cube self') = edges_of (counts_cube self)).
Proof.
  split; [by apply set_cube_binning_shared|].
  split.
  { intros np_log np_exp dpr t b method m. unfold define_cube_binning.
    destruct (bg_cube_shape _) as [[ne ny] nx].
    intros H. apply bind_Ok in H as (emin & _ & H).
    by apply set_cube_binning_shared in H as [H _]. }
  split.
  { intros self t self' Hinv H. unfold fill_events in H.
    apply bind_Ok in H as (sch & _ & H).
    apply bind_Ok in H as ([u' m'] & Hloop & [= <-]).
    simpl. by eapply fill_loop_shared. }
  intros sr self Hinv. eexists.
  split; [by apply smooth_spec, shared_binning_background_shape|].
  split; [|done].
  destruct Hinv as (Hc & Hl & He & Hb).
  unfold shared_binning, binned, has_shape in *. simpl.
  by rewrite shape_of_scaled_data.
Qed.

Lemma shared_binning_invariant_witness :
  ∃ m' m'',
    set_cube_binning [qz 0; qz 1; qz 2] [qz 0; qz 1] [qz 1; qz 10] false
      = Ok zero_model ∧
    fill_events zero_model two_observations = Ok m' ∧
    smooth (qfrac 1 3283) m' = Ok m'' ∧
    shared_binning m'' ∧
    edges_of (counts_cube m'') =
      ([qz 0; qz 1; qz 2], [qz 0; qz 1], [qz 1; qz 10]).
Proof.
  destruct shared_binning_invariant as (Hset & _ & Hfill & Hsmooth).
  assert (Hm : set_cube_binning [qz 0; qz 1; qz 2] [qz 0; qz 1]
                 [qz 1; qz 10] false = Ok zero_model) by reflexivity.
  destruct (Hset _ _ _ _ _ Hm) as [Hinv He].
  eassert (Hf : fill_events zero_model two_observations = Ok _)
    by (vm_compute; reflexivity).
  destruct (Hfill _ _ _ Hinv Hf) as [Hinv' He'].
  destruct (Hsmooth (qfrac 1 3283) _ Hinv') as (m'' & Hs & Hinv'' & He'').
  eexists _, m''.
  split; [exact Hm|]. split; [exact Hf|]. split; [exact Hs|].
  split; [exact Hinv''|].
  rewrite He'', He'. exact He.
Defined.

(** ** Bins of the histogram *)

Lemma bin_index_from_cons (i : nat) (lo hi : Qc) (later : list Qc) (v : Qc) :
  bin_index_from i (lo :: hi :: later) v =
    if bool_decide (lo ≤ v)%Qc &&
       (bool_decide (v < hi)%Qc ||
        (bool_decide (v = hi) && bool_decide (later = [])))
    then Some i
    else bin_index_from (S i) (hi :: later) v.
Proof. reflexivity. Qed.

Lemma strictly_increasing_cons (lo hi : Qc) (later : list Qc) :
  strictly_increasing (lo :: hi :: later) = true ↔
  (lo < hi)%Qc ∧ strictly_increasing (hi :: later) = true.
Proof.
  change (strictly_increasing (lo :: hi :: later))
    with (bool_decide (lo < hi)%Qc && strictly_increasing (hi :: later)).
  by rewrite andb_true_iff, bool_decide_eq_true.
Qed.

Lemma bin_index_from_range (edges : list Qc) (v : Qc) (i j : nat) :
  bin_index_from i edges v = Some j →
  (i ≤ j < i + n_bins edges)%nat.
Proof.
  revert i. induction edges as [|lo edges IH]; intros i; [done|].
  destruct edges as [|hi later]; [done|].
  rewrite bin_index_from_cons.
  destruct (_ && _).
  - intros [= <-]. unfold n_bins. simpl. lia.
  - intros H. apply IH in H. unfold n_bins in *. simpl in *. lia.
Qed.

Lemma bin_index_from_below (edges : list Qc) (lo v : Qc) (i : nat) :
  strictly_increasing (lo :: edges) = true →
  (v < lo)%Qc →
  bin_index_from i (lo :: edges) v = None.
Proof.
  revert lo i. induction edges as [|hi later IH]; intros lo i Hinc Hv;
    [done|].
  rewrite bin_index_from_cons.
  apply strictly_increasing_cons in Hinc as [Hlt Hinc].
  rewrite (bool_decide_eq_false_2 (lo ≤ v)%Qc) by by apply Qclt_not_le.
  cbn [andb]. apply IH; [done|]. by eapply Qclt_trans.
Qed.

Lemma strictly_increasing_last (edges : list Qc) (lo hi : Qc) :
  strictly_increasing (lo :: edges) = true →
  last (lo :: edges) = Some hi → (lo ≤ hi)%Qc.
Proof.
  revert lo. induction edges as [|mid later IH]; intros lo Hinc Hlast.
  - injection Hlast as <-. apply Qcle_refl.
  - apply strictly_increasing_cons in Hinc as [Hlt Hinc].
    rewrite last_cons_cons in Hlast.
    apply Qclt_le_weak. eapply Qclt_le_trans; [done|]. by apply IH.
Qed.

Lemma bin_index_from_within (edges : list Qc) (v : Qc) (i : nat) :
  strictly_increasing edges = true →
  is_Some (bin_index_from i edges v) ↔ within edges v = true.
Proof.
  revert i. induction edges as [|lo edges IH]; intros i Hinc.
  { split; [by intros [? ?]|done]. }
  destruct edges as [|hi later].
  { split; [by intros [? ?]|done]. }
  pose proof Hinc as Hinc'.
  apply strictly_increasing_cons in Hinc' as [Hlt Hinc'].
  destruct (proj2 (last_is_Some (hi :: later))) as [top Htop]; [done|].
  assert (Hle : (hi ≤ top)%Qc) by by eapply strictly_increasing_last.
  assert (Hw : within (lo :: hi :: later) v =
               bool_decide (lo ≤ v)%Qc && bool_decide (v ≤ top)%Qc).
  { unfold within. rewrite last_cons_cons, Htop. cbn [head].
    by rewrite (bool_decide_eq_true_2 (2 ≤ _)%nat) by (simpl; lia). }
  rewrite Hw, bin_index_from_cons.
  destruct (decide (lo ≤ v)%Qc) as [Hlo|Hlo].
  2:{ rewrite (bool_decide_eq_false_2 _ Hlo). cbn [andb orb].
      rewrite bin_index_from_below; [|done|].
      - split; [by intros [? ?]|done].
      - eapply Qclt_trans; [|done]. by apply Qcnot_le_lt. }
  rewrite (bool_decide_eq_true_2 _ Hlo). cbn [andb orb].
  destruct (decide (v < hi)%Qc) as [Hhi|Hhi].
  { rewrite (bool_decide_eq_true_2 _ Hhi). cbn [andb orb].
    split; [intros _|by eexists].
    apply bool_decide_eq_true. apply Qclt_le_weak.
    by eapply Qclt_le_trans. }
  rewrite (bool_decide_eq_false_2 _ Hhi). cbn [andb orb].
  apply Qcnot_lt_le in Hhi.
  destruct later as [|next later].
  { injection Htop as <-. rewrite (bool_decide_eq_true_2 ([] = [])) by done.
    rewrite andb_true_r.
    destruct (decide (v = hi)) as [->|Hne].
    - rewrite bool_decide_eq_true_2 by done.
      rewrite bool_decide_eq_true_2 by apply Qcle_refl. split; by eauto.
    - rewrite (bool_decide_eq_false_2 _ Hne). cbn [andb orb].
      rewrite bool_decide_eq_false_2; [split; [by intros [? ?]|done]|].
      intros Hv. apply Hne. by apply Qcle_antisym. }
  rewrite (bool_decide_eq_false_2 (next :: later = [])) by done.
  rewrite andb_false_r.
  rewrite (IH (S i) Hinc'). unfold within.
  rewrite Htop. cbn [head]. rewrite (bool_decide_eq_true_2 (hi ≤ v)%Qc Hhi).
  by rewrite (bool_decide_eq_true_2 (2 ≤ _)%nat) by (simpl; lia).
Qed.

Lemma event_bin_inside (e_edges y_edges x_edges : list Qc) (ev : event) :
  strictly_increasing e_edges = true →
  strictly_increasing y_edges = true →
  strictly_increasing x_edges = true →
  is_Some (event_bin e_edges y_edges x_edges ev) ↔
  inside_edges e_edges y_edges x_edges ev = true.
Proof.
  intros He Hy Hx. unfold event_bin, inside_edges, bin_index.
  rewrite !andb_true_iff.
  rewrite <- (bin_index_from_within e_edges _ 0 He).
  rewrite <- (bin_index_from_within y_edges _ 0 Hy).
  rewrite <- (bin_index_from_within x_edges _ 0 Hx).
  destruct (bin_index_from 0 e_edges _); simpl;
    [|split; [by intros [? ?]|by intros [[[? ?] _] _]]].
  destruct (bin_index_from 0 y_edges _); simpl;
    [|split; [by intros [? ?]|by intros [[_ [? ?]] _]]].
  destruct (bin_index_from 0 x_edges _); simpl;
    [|split; [by intros [? ?]|by intros [_ [? ?]]]].
  split; [intros _|]; eauto.
Qed.

Lemma event_bin_range (e_edges y_edges x_edges : list Qc) (ev : event)
    (i j k : nat) :
  event_bin e_edges y_edges x_edges ev = Some (i, j, k) →
  (i < n_bins e_edges ∧ j < n_bins y_edges ∧ k < n_bins x_edges)%nat.
Proof.
  unfold event_bin, bin_index. intros H.
  destruct (bin_index_from 0 e_edges _) as [i'|] eqn:Hi; simpl in H; [|done].
  destruct (bin_index_from 0 y_edges _) as [j'|] eqn:Hj; simpl in H; [|done].
  destruct (bin_index_from 0 x_edges _) as [k'|] eqn:Hk; simpl in H; [|done].
  injection H as -> -> ->.
  apply bin_index_from_range in Hi, Hj, Hk. lia.
Qed.

(** ** Sums of counts *)

Lemma qz_add (a b : Z) : qz (a + b) = (qz a + qz b)%Qc.
Proof.
  unfold qz. apply Qc_is_canon. simpl.
  rewrite !Qred_correct. by rewrite inject_Z_plus.
Qed.

Lemma of_count_add (a b : nat) :
  xadd (of_count a) (of_count b) = of_count (a + b).
Proof. unfold of_count. simpl. by rewrite Nat2Z.inj_add, qz_add. Qed.

Lemma xsum_of_count (g : nat → nat) (l : list nat) :
  xsum (map (fun k => of_count (g k)) l) = of_count (sum_list_with g l).
Proof.
  induction l as [|k l IH]; [done|].
  cbn [map sum_list_with]. unfold xsum in *. cbn [foldr].
  by rewrite IH, of_count_add.
Qed.

Lemma np_sum_grid3 (ne ny nx : nat) (f : nat → nat → nat → nat) :
  np_sum (grid3 ne ny nx (fun i j k => of_count (f i j k))) =
    of_count (sum_grid ne ny nx f).
Proof.
  unfold np_sum, grid3, sum_grid, sum_seq, image_sum.
  rewrite map_map. rewrite <- xsum_of_count. f_equal.
  apply map_ext. intros i.
  rewrite map_map. rewrite <- xsum_of_count. f_equal.
  apply map_ext. intros j.
  apply xsum_of_count.
Qed.

Lemma zip_with_replicate_map {A B C D} (f : A → C → D) (a : A) (g : B → C)
    (l : list B) (n : nat) :
  n = length l →
  zip_with f (replicate n a) (map g l) = map (fun b => f a (g b)) l.
Proof.
  intros ->. induction l as [|b l IH]; simpl; by f_equal.
Qed.

Lemma xadd_0_of_count (n : nat) : xadd (Fin 0%Qc) (of_count n) = of_count n.
Proof. unfold of_count. simpl. f_equal. ring. Qed.

Lemma zeros_plus_counts (ne ny nx : nat) (f : nat → nat → nat → nat) :
  zip_with (zip_with (zip_with xadd))
    (replicate ne (replicate ny (replicate nx (Fin 0%Qc))))
    (map (map (map of_count)) (grid3 ne ny nx f)) =
  grid3 ne ny nx (fun i j k => of_count (f i j k)).
Proof.
  unfold grid3. rewrite map_map.
  rewrite zip_with_replicate_map by by rewrite length_seq.
  apply map_ext. intros i. rewrite map_map.
  rewrite zip_with_replicate_map by by rewrite length_seq.
  apply map_ext. intros j. rewrite map_map.
  rewrite zip_with_replicate_map by by rewrite length_seq.
  apply map_ext. intros k. apply xadd_0_of_count.
Qed.

Lemma sum_seq_add (n : nat) (g h : nat → nat) :
  sum_seq n (fun i => g i + h i)%nat = (sum_seq n g + sum_seq n h)%nat.
Proof.
  unfold sum_seq. induction (seq 0 n) as [|i l IH]; simpl; lia.
Qed.

Lemma sum_seq_ext (n : nat) (g h : nat → nat) :
  (∀ i, (i < n)%nat → g i = h i) → sum_seq n g = sum_seq n h.
Proof.
  unfold sum_seq. intros Hext.
  assert (Hall : ∀ i, i ∈ seq 0 n → g i = h i).
  { intros i Hi. apply Hext. apply elem_of_seq in Hi. lia. }
  induction (seq 0 n) as [|i l IH]; simpl; [done|].
  rewrite Hall by left. rewrite IH; [done|].
  intros j Hj. apply Hall. by right.
Qed.

Lemma sum_seq_zero (n : nat) : sum_seq n (fun _ => 0%nat) = 0%nat.
Proof. unfold sum_seq. induction (seq 0 n); simpl; lia. Qed.

Lemma sum_seq_all_zero (n : nat) (g : nat → nat) :
  (∀ i, (i < n)%nat → g i = 0%nat) → sum_seq n g = 0%nat.
Proof.
  intros Hz. rewrite (sum_seq_ext n g (fun _ => 0%nat) Hz).
  apply sum_seq_zero.
Qed.

Lemma sum_seq_S (n : nat) (g : nat → nat) :
  sum_seq (S n) g = (sum_seq n g + g n)%nat.
Proof.
  unfold sum_seq. rewrite seq_S, sum_list_with_app. simpl. lia.
Qed.

(** A sum with one term that differs from zero. *)
Lemma sum_seq_single (n i0 : nat) (g : nat → nat) :
  (∀ i, i ≠ i0 → g i = 0%nat) →
  sum_seq n g = if bool_decide (i0 < n)%nat then g i0 else 0%nat.
Proof.
  intros Hz. induction n as [|n IH]; [done|].
  rewrite sum_seq_S, IH.
  destruct (decide (n = i0)) as [->|Hne].
  - rewrite bool_decide_eq_false_2, bool_decide_eq_true_2 by lia. done.
  - rewrite (Hz n Hne).
    destruct (decide (i0 < n)%nat).
    + by rewrite !bool_decide_eq_true_2 by lia.
    + by rewrite !bool_decide_eq_false_2 by lia.
Qed.

Lemma sum_grid_add (ne ny nx : nat) (f g : nat → nat → nat → nat) :
  sum_grid ne ny nx (fun i j k => f i j k + g i j k)%nat =
    (sum_grid ne ny nx f + sum_grid ne ny nx g)%nat.
Proof.
  unfold sum_grid. rewrite <- sum_seq_add. apply sum_seq_ext. intros i _.
  rewrite <- sum_seq_add. apply sum_seq_ext. intros j _.
  apply sum_seq_add.
Qed.

(** The indicator of one cell sums to one over a grid that has the cell. *)
Lemma sum_grid_indicator (ne ny nx : nat) (c : option (nat * nat * nat)) :
  (∀ i j k, c = Some (i, j, k) → (i < ne ∧ j < ny ∧ k < nx)%nat) →
  sum_grid ne ny nx
    (fun i j k => if bool_decide (c = Some (i, j, k)) then 1 else 0)%nat =
    if bool_decide (is_Some c) then 1%nat else 0%nat.
Proof.
  intros Hrange. unfold sum_grid. destruct c as [[[i0 j0] k0]|].
  - destruct (Hrange i0 j0 k0 eq_refl) as (Hi & Hj & Hk).
    rewrite (bool_decide_eq_true_2 (is_Some _)) by eauto.
    rewrite (sum_seq_single ne i0).
    2:{ intros i Hne. apply sum_seq_all_zero. intros j _.
        apply sum_seq_all_zero. intros k _.
        rewrite bool_decide_eq_false_2; [done|]. intros [= ? ? ?].
        congruence. }
    rewrite (bool_decide_eq_true_2 _ Hi), (sum_seq_single ny j0).
    2:{ intros j Hne. apply sum_seq_all_zero. intros k _.
        rewrite bool_decide_eq_false_2; [done|]. intros [= ? ?].
        congruence. }
    rewrite (bool_decide_eq_true_2 _ Hj), (sum_seq_single nx k0).
    2:{ intros k Hne. rewrite bool_decide_eq_false_2; [done|].
        intros [= ?]. congruence. }
    rewrite (bool_decide_eq_true_2 _ Hk).
    by rewrite bool_decide_eq_true_2.
  - rewrite bool_decide_eq_false_2 by by intros [? ?].
    apply sum_seq_all_zero. intros i _.
    apply sum_seq_all_zero. intros j _.
    by apply sum_seq_all_zero.
Qed.

Lemma sum_grid_ext (ne ny nx : nat) (f g : nat → nat → nat → nat) :
  (∀ i j k, f i j k = g i j k) →
  sum_grid ne ny nx f = sum_grid ne ny nx g.
Proof.
  intros Hext. unfold sum_grid.
  apply sum_seq_ext. intros i _. apply sum_seq_ext. intros j _.
  apply sum_seq_ext. intros k _. apply Hext.
Qed.

(** The counts of a histogram sum to the number of samples that have a
    bin. *)
Lemma sum_grid_histogram (e_edges y_edges x_edges : list Qc)
    (sample : list event) :
  sum_grid (n_bins e_edges) (n_bins y_edges) (n_bins x_edges)
    (fun i j k =>
       length (filter (fun ev =>
         event_bin e_edges y_edges x_edges ev = Some (i, j, k)) sample)) =
  length (filter (fun ev =>
            is_Some (event_bin e_edges y_edges x_edges ev)) sample).
Proof.
  induction sample as [|ev sample IH].
  - unfold sum_grid. simpl.
    apply sum_seq_all_zero. intros i _.
    apply sum_seq_all_zero. intros j _.
    by apply sum_seq_all_zero.
  - rewrite (sum_grid_ext _ _ _ _
      (fun i j k =>
         (if bool_decide (event_bin e_edges y_edges x_edges ev
                          = Some (i, j, k)) then 1 else 0) +
         length (filter (fun ev =>
           event_bin e_edges y_edges x_edges ev = Some (i, j, k)) sample))%nat).
    2:{ intros i j k. rewrite filter_cons.
        destruct (decide _) as [Hd|Hd];
          [rewrite (bool_decide_eq_true_2 _ Hd)
          |rewrite (bool_decide_eq_false_2 _ Hd)]; done. }
    rewrite sum_grid_add, IH, sum_grid_indicator by apply event_bin_range.
    rewrite (filter_cons (fun ev => is_Some _)).
    destruct (decide _) as [Hd|Hd];
      [rewrite (bool_decide_eq_true_2 _ Hd)
      |rewrite (bool_decide_eq_false_2 _ Hd)]; done.
Qed.

(** ** Counts *)

Lemma np_histogramdd_Ok (sample : list event)
    (e_edges y_edges x_edges : list Qc) (hist : list (list (list nat))) :
  np_histogramdd sample e_edges y_edges x_edges = Ok hist →
  strictly_increasing e_edges = true ∧
  strictly_increasing y_edges = true ∧
  strictly_increasing x_edges = true ∧
  hist = grid3 (n_bins e_edges) (n_bins y_edges) (n_bins x_edges)
           (fun i j k =>
              length (filter (fun ev =>
                event_bin e_edges y_edges x_edges ev = Some (i, j, k))
                sample)).
Proof.
  unfold np_histogramdd.
  destruct (strictly_increasing e_edges); [|done].
  destruct (strictly_increasing y_edges); [|done].
  destruct (strictly_increasing x_edges); [|done].
  by intros [= <-].
Qed.

(** C4: a model fresh from [set_cube_binning], filled with a single
    observation, has a counts cube whose sum is the number of the events
    of the observation that have their energy in [threshold,
    threshold*1e6] and lie within the edges of the cube on the three
    axes. *)
Theorem fill_single_observation_counts
    (x_edges y_edges e_edges : list Qc) (do_not_fill : bool)
    (m m' : CubeBackgroundModel) (observation_table : ObservationTable)
    (obs : observation) (card : aeff_card) :
  set_cube_binning x_edges y_edges e_edges do_not_fill = Ok m →
  rows observation_table = [obs] →
  aeff_LO_THRES obs = Some card →
  fill_events m observation_table = Ok m' →
  np_sum (data (counts_cube m')) =
    of_count
      (length
         (filter (fun ev => inside_edges e_edges y_edges x_edges ev = true)
            (select_energy (event_list obs)
               (LO_THRES card, (LO_THRES card * qz 1000000)%Qc)))).
Proof.
  intros Hset Hrows Hcard Hfill.
  unfold set_cube_binning, np_zeros in Hset.
  case_bool_decide as Hneg; [done|]. injection Hset as <-.
  unfold fill_events in Hfill. rewrite Hrows in Hfill.
  apply bind_Ok in Hfill as (sch & _ & Hfill).
  apply bind_Ok in Hfill as ([u' m1] & Hloop & [= <-]).
  cbn [fill_loop] in Hloop.
  apply bind_Ok in Hloop as ([u1 m2] & Hobs & [= <- <-]).
  apply fill_observation_Ok in Hobs
    as (card' & hist & Hcard' & Hhist & _ & _ & ->).
  assert (card' = card) as -> by congruence.
  cbn [counts_cube coordx_edges coordy_edges energy_edges data with_data
       snd] in *.
  apply np_histogramdd_Ok in Hhist as (He & Hy & Hx & ->).
  replace (Z.to_nat (len e_edges - 1)) with (n_bins e_edges)
    by (unfold n_bins, len; lia).
  replace (Z.to_nat (len y_edges - 1)) with (n_bins y_edges)
    by (unfold n_bins, len; lia).
  replace (Z.to_nat (len x_edges - 1)) with (n_bins x_edges)
    by (unfold n_bins, len; lia).
  rewrite zeros_plus_counts, np_sum_grid3, sum_grid_histogram.
  do 2 f_equal. apply list_filter_iff. intros ev.
  by apply event_bin_inside.
Qed.

Lemma fill_single_observation_counts_witness :
  ∃ m',
    fill_events zero_model (mkTable "HESS" [three_event_observation])
      = Ok m' ∧
    np_sum (data (counts_cube m')) = of_count 1.
Proof.
  eexists. split.
  - vm_compute. reflexivity.
  - apply (fill_single_observation_counts
             [qz 0; qz 1; qz 2] [qz 0; qz 1] [qz 1; qz 10] false zero_model _
             (mkTable "HESS" [three_event_observation])
             three_event_observation (mkCard (qfrac 1 2) "[TeV]")).
    + reflexivity.
    + reflexivity.
    + reflexivity.
    + vm_compute. reflexivity.
Defined.

(** C4, as the specification words it, fails for an observation with an
    event of 100 TeV, above the last energy edge of 10 TeV and inside
    [threshold, threshold*1e6]: two events pass the selection and one is
    counted. *)
Lemma fill_counts_drop_events_outside_edges :
  ¬ (∀ (x_edges y_edges e_edges : list Qc) (do_not_fill : bool)
       (m m' : CubeBackgroundModel) (obs : observation) (card : aeff_card),
       set_cube_binning x_edges y_edges e_edges do_not_fill = Ok m →
       aeff_LO_THRES obs = Some card →
       fill_events m (mkTable "HESS" [obs]) = Ok m' →
       np_sum (data (counts_cube m')) =
         of_count
           (length (select_energy (event_list obs)
                      (LO_THRES card, (LO_THRES card * qz 1000000)%Qc)))).
Proof.
  intros H.
  eassert (Hf : fill_events zero_model
                  (mkTable "HESS" [three_event_observation]) = Ok _)
    by (vm_compute; reflexivity).
  specialize (H [qz 0; qz 1; qz 2] [qz 0; qz 1] [qz 1; qz 10] false
                zero_model _ three_event_observation
                (mkCard (qfrac 1 2) "[TeV]") eq_refl eq_refl Hf).
  vm_compute in H. discriminate H.
Qed.

(** ** Integrals *)

Lemma xadd_Fin_inv (a b : xval) (r : Qc) :
  xadd a b = Fin r → ∃ x y, a = Fin x ∧ b = Fin y ∧ r = (x + y)%Qc.
Proof.
  destruct a as [x| | |], b as [y| | |]; simpl; try done.
  intros [= <-]. by exists x, y.
Qed.

Lemma xmul_Fin_inv (a b : xval) (r : Qc) :
  xmul a b = Fin r → ∃ x y, a = Fin x ∧ b = Fin y ∧ r = (x * y)%Qc.
Proof.
  destruct a as [x| | |], b as [y| | |]; simpl; try done;
    try (by destruct (_ ?= _)%Qc).
  intros [= <-]. by exists x, y.
Qed.

Lemma xsum_cons (a : xval) (l : list xval) :
  xsum (a :: l) = xadd a (xsum l).
Proof. reflexivity. Qed.

Lemma xsum_nil_scale (c r : Qc) :
  xsum [] = Fin r → xsum [] = Fin (c * r)%Qc.
Proof.
  change (xsum []) with (Fin 0%Qc). intros [= <-]. f_equal. ring.
Qed.

(** Scaling the values of a row scales its finite weighted sum. *)
Lemma xsum_scale_row (c r : Qc) (row weights : list xval) :
  xsum (zip_with xmul row weights) = Fin r →
  xsum (zip_with xmul (map (fun v => xmul v (Fin c)) row) weights) =
    Fin (c * r)%Qc.
Proof.
  revert weights r. induction row as [|s row IH]; intros [|a weights] r;
    cbn [map zip_with]; try apply xsum_nil_scale.
  rewrite !xsum_cons. intros H.
  apply xadd_Fin_inv in H as (t & r' & Ht & Hr' & ->).
  apply xmul_Fin_inv in Ht as (s' & a' & -> & -> & ->).
  rewrite (IH _ _ Hr'). simpl. f_equal. ring.
Qed.

Lemma image_sum_scale (c r : Qc) (im area : image) :
  image_sum (zip_with (zip_with xmul) im area) = Fin r →
  image_sum (zip_with (zip_with xmul) (scale (Fin c) im) area) =
    Fin (c * r)%Qc.
Proof.
  unfold image_sum, scale.
  revert area r. induction im as [|row im IH]; intros [|arow area] r;
    cbn [map zip_with]; try apply xsum_nil_scale.
  rewrite !xsum_cons. intros H.
  apply xadd_Fin_inv in H as (t & r' & Ht & Hr' & ->).
  rewrite (xsum_scale_row c t _ _ Ht), (IH _ _ Hr'). simpl. f_equal. ring.
Qed.

Lemma integrals_lookup (sr_per_deg2 : Qc) (c : Cube) (d : cube_data)
    (i : nat) :
  integrals sr_per_deg2 c d !! i =
    (im ← d !! i; area ← bin_area sr_per_deg2 c !! i;
     Some (image_sum (zip_with (zip_with xmul) im area))).
Proof.
  unfold integrals. rewrite lookup_map, lookup_zip_with.
  destruct (d !! i); simpl; [|done].
  by destruct (bin_area sr_per_deg2 c !! i).
Qed.

Lemma bin_area_with_data (sr_per_deg2 : Qc) (c : Cube) (d : cube_data) :
  bin_area sr_per_deg2 (with_data c d) = bin_area sr_per_deg2 c.
Proof. reflexivity. Qed.

Lemma smooth_Ok_shape (sr_per_deg2 : Qc) (m m' : CubeBackgroundModel) :
  smooth sr_per_deg2 m = Ok m' →
  shape_of (data (background_cube m)) =
    shape_of (bin_area sr_per_deg2 (background_cube m)).
Proof.
  unfold smooth. intros H. apply bind_Ok in H as (I0 & H0 & _).
  unfold integral_images in H0. apply bind_Ok in H0 as (p & Hp & _).
  by apply elementwise_Ok in Hp as [Hs _].
Qed.

(** Where the rescaling of [smooth] does what it is there for: for every
    energy bin whose integral is finite before smoothing and finite and
    different from zero after the convolution passes, the integral of the
    image after [smooth] is the integral before it. *)
Lemma smooth_preserves_image_integral (sr_per_deg2 : Qc)
    (self self' : CubeBackgroundModel) (i_energy : nat) (q0 q1 : Qc) :
  smooth sr_per_deg2 self = Ok self' →
  integrals sr_per_deg2 (background_cube self)
    (data (background_cube self)) !! i_energy = Some (Fin q0) →
  integrals sr_per_deg2 (background_cube self)
    (smoothed_data self) !! i_energy = Some (Fin q1) →
  q1 ≠ 0%Qc →
  integrals sr_per_deg2 (background_cube self')
    (data (background_cube self')) !! i_energy = Some (Fin q0).
Proof.
  intros Hsmooth H0 H1 Hq1.
  rewrite (smooth_spec _ _ (smooth_Ok_shape _ _ _ Hsmooth)) in Hsmooth.
  injection Hsmooth as <-.
  cbn [background_cube with_data data].
  assert (Hf : scale_factors sr_per_deg2 self !! i_energy =
               Some (Fin (q0 / q1)%Qc)).
  { unfold scale_factors. rewrite lookup_zip_with, H0, H1. simpl.
    by rewrite bool_decide_eq_false_2. }
  rewrite integrals_lookup in H1 |- *.
  rewrite bin_area_with_data.
  unfold scaled_data. rewrite list_lookup_imap, Hf.
  destruct (smoothed_data self !! i_energy) as [im|]; [|done].
  simpl in *.
  destruct (bin_area sr_per_deg2 (background_cube self) !! i_energy)
    as [area|]; [|done].
  simpl in *. injection H1 as H1.
  rewrite (image_sum_scale _ _ _ _ H1). do 2 f_equal.
  by field.
Qed.

Lemma smooth_preserves_image_integral_witness :
  ∃ self' q0,
    smooth (qfrac 1 3283) (two_pixel_model 1000000 1 0) = Ok self' ∧
    integrals (qfrac 1 3283)
      (background_cube (two_pixel_model 1000000 1 0))
      (data (background_cube (two_pixel_model 1000000 1 0))) !! 0%nat =
      Some (Fin q0) ∧
    integrals (qfrac 1 3283) (background_cube self')
      (data (background_cube self')) !! 0%nat = Some (Fin q0).
Proof.
  eassert (Hs : smooth (qfrac 1 3283) (two_pixel_model 1000000 1 0) = Ok _)
    by (vm_compute; reflexivity).
  eassert (H0 : integrals (qfrac 1 3283)
                  (background_cube (two_pixel_model 1000000 1 0))
                  (data (background_cube (two_pixel_model 1000000 1 0)))
                !! 0%nat = Some (Fin _))
    by (vm_compute; reflexivity).
  eassert (H1 : integrals (qfrac 1 3283)
                  (background_cube (two_pixel_model 1000000 1 0))
                  (smoothed_data (two_pixel_model 1000000 1 0))
                !! 0%nat = Some (Fin _))
    by (vm_compute; reflexivity).
  eexists _, _. split; [exact Hs|]. split; [exact H0|].
  apply (smooth_preserves_image_integral _ _ _ _ _ _ Hs H0 H1).
  intros Hz. apply (f_equal this) in Hz. vm_compute in Hz. discriminate Hz.
Defined.

(** C1: [smooth] does not preserve the integral of an empty image.  The
    cube of [empty_bin_model] has a positive total integral; the integral
    of its second image is zero before [smooth] and nan after it, because
    the image is multiplied by the quotient of the two integrals, zero
    divided by zero. *)
Theorem smooth_empty_slice_integral_becomes_nan :
  ∃ self',
    smooth (qfrac 1 3283) empty_bin_model = Ok self' ∧
    xsum (integrals (qfrac 1 3283) (background_cube empty_bin_model)
            (data (background_cube empty_bin_model))) =
      Fin (qfrac 1 3283) ∧
    integrals (qfrac 1 3283) (background_cube empty_bin_model)
      (data (background_cube empty_bin_model)) !! 1%nat = Some (Fin 0%Qc) ∧
    integrals (qfrac 1 3283) (background_cube self')
      (data (background_cube self')) !! 1%nat = Some NaN.
Proof.
  eexists. split; [vm_compute; reflexivity|].
  split; [|split].
  - vm_compute. reflexivity.
  - vm_compute. reflexivity.
  - vm_compute. reflexivity.
Qed.

(** A positive total integral of the cube is therefore not enough for
    the integral of every image to come out of [smooth] as it went in. *)
Lemma smooth_empty_image_integral_nan :
  ¬ (∀ (sr_per_deg2 : Qc) (self self' : CubeBackgroundModel)
       (i_energy : nat) (total : Qc),
       xsum (integrals sr_per_deg2 (background_cube self)
               (data (background_cube self))) = Fin total →
       (0 < total)%Qc →
       smooth sr_per_deg2 self = Ok self' →
       integrals sr_per_deg2 (background_cube self')
         (data (background_cube self')) !! i_energy =
       integrals sr_per_deg2 (background_cube self)
         (data (background_cube self)) !! i_energy).
Proof.
  intros H.
  eassert (Hs : smooth (qfrac 1 3283) empty_bin_model = Ok _)
    by (vm_compute; reflexivity).
  eassert (Ht : xsum (integrals (qfrac 1 3283)
                        (background_cube empty_bin_model)
                        (data (background_cube empty_bin_model))) = Fin _)
    by (vm_compute; reflexivity).
  eapply (H (qfrac 1 3283) empty_bin_model _ 1%nat) in Hs; [| exact Ht |].
  - vm_compute in Hs. discriminate Hs.
  - vm_compute. reflexivity.
Qed.

(** * Further properties *)

(** ** Float arithmetic *)




(** ** Bins of an axis *)

Lemma bin_index_from_in_bin (edges : list Qc) (v : Qc) (k i : nat) :
  strictly_increasing edges = true →
  bin_index_from k edges v = Some (k + i)%nat ↔ in_bin edges i v = true.
Proof.
  revert k i. induction edges as [|lo edges IH]; intros k i Hinc.
  { unfold in_bin. by destruct i. }
  destruct edges as [|hi later].
  { unfold in_bin. by destruct i as [|[|i]]. }
  pose proof Hinc as Hinc'.
  apply strictly_increasing_cons in Hinc' as [Hlt Hinc'].
  rewrite bin_index_from_cons.
  destruct i as [|i].
  - (* the first bin *)
    unfold in_bin. cbn [lookup list_lookup length].
    replace (k + 0)%nat with k by lia.
    assert (Hlast : bool_decide (later = []) =
                    bool_decide (2 = S (S (length later)))%nat).
    { by destruct later. }
    rewrite Hlast.
    destruct (_ && _) eqn:Hcond; [done|].
    split; [|done]. intros Hlater.
    apply bin_index_from_range in Hlater. lia.
  - (* a later bin: the first bin must not take the value *)
    replace (k + S i)%nat with (S k + i)%nat by lia.
    assert (Hin : in_bin (lo :: hi :: later) (S i) v =
                  in_bin (hi :: later) i v).
    { unfold in_bin. cbn [lookup list_lookup length].
      destruct (later !! i) as [hi'|]; [|by destruct ((hi :: later) !! i)].
      destruct ((hi :: later) !! i) as [lo'|]; [|done].
      do 3 f_equal. apply bool_decide_ext. simpl. lia. }
    rewrite Hin, <- (IH (S k) i Hinc').
    destruct (_ && _) eqn:Hcond; [|done].
    split; [intros [= ?]; lia|].
    (* the value is in the first bin, so it is in no later bin *)
    intros Hlater. exfalso.
    apply andb_true_iff in Hcond as [Hlo Hcond].
    apply bool_decide_eq_true in Hlo.
    apply (IH (S k) i Hinc') in Hlater.
    unfold in_bin in Hlater.
    destruct ((hi :: later) !! i) as [lo'|] eqn:Hlo'; [|done].
    destruct ((hi :: later) !! S i) as [hi'|] eqn:Hhi'; [|done].
    apply andb_true_iff in Hlater as [Hge _].
    apply bool_decide_eq_true in Hge.
    assert (Hhi_lo : (hi ≤ lo')%Qc).
    { clear -Hinc' Hlo'. revert hi lo' later Hinc' Hlo'.
      induction i as [|i IHi]; intros hi lo' later Hinc' Hlo'.
      - injection Hlo' as <-. apply Qcle_refl.
      - destruct later as [|next later]; [done|].
        apply strictly_increasing_cons in Hinc' as [Hlt' Hinc''].
        apply Qclt_le_weak. eapply Qclt_le_trans; [done|].
        by apply (IHi next lo' later). }
    apply orb_true_iff in Hcond as [Hvlt|Hveq].
    + apply bool_decide_eq_true in Hvlt.
      apply (Qclt_not_le _ _ Hvlt). by eapply Qcle_trans.
    + apply andb_true_iff in Hveq as [_ Hnil].
      apply bool_decide_eq_true in Hnil. subst later. by destruct i.
Qed.

Lemma bin_index_in_bin (edges : list Qc) (v : Qc) (i : nat) :
  strictly_increasing edges = true →
  bin_index edges v = Some i ↔ in_bin edges i v = true.
Proof. intros Hinc. by apply (bin_index_from_in_bin edges v 0 i). Qed.

Lemma event_bin_in_bin (e_edges y_edges x_edges : list Qc) (ev : event)
    (i j k : nat) :
  strictly_increasing e_edges = true →
  strictly_increasing y_edges = true →
  strictly_increasing x_edges = true →
  event_bin e_edges y_edges x_edges ev = Some (i, j, k) ↔
  in_bin e_edges i (ENERGY ev) && in_bin y_edges j (DETY ev) &&
  in_bin x_edges k (DETX ev) = true.
Proof.
  intros He Hy Hx. rewrite !andb_true_iff.
  rewrite <- (bin_index_in_bin e_edges _ _ He).
  rewrite <- (bin_index_in_bin y_edges _ _ Hy).
  rewrite <- (bin_index_in_bin x_edges _ _ Hx).
  unfold event_bin.
  destruct (bin_index e_edges _) as [i'|]; simpl;
    [|split; [done|by intros [[? _] _]]].
  destruct (bin_index y_edges _) as [j'|]; simpl;
    [|split; [done|by intros [[_ ?] _]]].
  destruct (bin_index x_edges _) as [k'|]; simpl;
    [|split; [done|by intros [_ ?]]].
  split; [by intros [= -> -> ->]|by intros [[[= ->] [= ->]] [= ->]]].
Qed.
(** ** One observation added to a model *)

Lemma fill_observation_TeV (u : option string) (m : CubeBackgroundModel)
    (obs : observation) (v : Qc) :
  aeff_LO_THRES obs = TeV_card v →
  fill_observation (u, m) obs =
    if fillable m then Ok (Some "TeV", filled_with m obs v)
    else Err ValueError.
Proof.
  intros Hcard. unfold fill_observation. cbn [fst snd].
  rewrite Hcard, read_energy_threshold_TeV. cbn [mbind result_bind fst snd value].
  unfold np_histogramdd, fillable. cbn zeta.
  destruct (strictly_increasing (energy_edges (counts_cube m))); [|done].
  destruct (strictly_increasing (coordy_edges (counts_cube m))); [|done].
  destruct (strictly_increasing (coordx_edges (counts_cube m))); [|done].
  cbn [andb mbind result_bind].
  unfold elementwise.
  pose proof (shape_of_counts (n_bins (energy_edges (counts_cube m)))
    (n_bins (coordy_edges (counts_cube m)))
    (n_bins (coordx_edges (counts_cube m)))) as Hc.
  unfold has_shape in Hc. rewrite Hc.
  pose proof (shape_of_livetime_mask (counts_cube m)
    (observation_live_time_duration obs) v) as Hl.
  unfold has_shape in Hl. rewrite Hl.
  destruct (bool_decide (shape_of (data (counts_cube m)) = _));
    cbn [andb mbind result_bind]; [|done].
  destruct (bool_decide (shape_of (data (livetime_cube m)) = _));
    cbn [andb mbind result_bind]; done.
Qed.
(** ** Counts of every bin *)

Lemma at3_counts_grid3 (ne ny nx : nat) (f : nat → nat → nat → nat)
    (i j k : nat) (w : xval) :
  at3 (map (map (map of_count)) (grid3 ne ny nx f)) i j k = Some w →
  w = of_count (f i j k).
Proof.
  unfold at3, grid3. intros H.
  apply bind_Some in H as (im & Him & H).
  apply bind_Some in H as (row & Hrow & Hw).
  rewrite !lookup_map in Him.
  destruct (seq 0 ne !! i) as [i'|] eqn:Hi; [|done].
  apply lookup_seq in Hi as [-> _]. injection Him as <-.
  rewrite !lookup_map in Hrow.
  destruct (seq 0 ny !! j) as [j'|] eqn:Hj; [|done].
  apply lookup_seq in Hj as [-> _]. injection Hrow as <-.
  rewrite !lookup_map in Hw.
  destruct (seq 0 nx !! k) as [k'|] eqn:Hk; [|done].
  apply lookup_seq in Hk as [-> _]. by injection Hw as <-.
Qed.

Lemma fill_loop_counts (l : list observation) (u u' : option string)
    (m m' : CubeBackgroundModel) (i j k : nat) (v : xval) :
  fill_loop l (u, m) = Ok (u', m') →
  at3 (data (counts_cube m)) i j k = Some v →
  at3 (data (counts_cube m')) i j k =
    Some (foldl xadd v
            (map (fun obs =>
                    of_count (length (events_in_bin (counts_cube m) i j k obs)))
                 l)).
Proof.
  revert u m v. induction l as [|obs l IH]; intros u m v Hfill Hv.
  - injection Hfill as <- <-. done.
  - cbn [fill_loop] in Hfill.
    apply bind_Ok in Hfill as ([u1 m1] & Hobs & Hfill).
    apply fill_observation_Ok in Hobs
      as (card & hist & Hcard & Hhist & Hshape & _ & ->).
    apply np_histogramdd_Ok in Hhist as (He & Hy & Hx & ->).
    destruct (shape_of_at3 _ _ i j k Hshape) as [w Hw]; [by eexists|].
    pose proof (at3_counts_grid3 _ _ _ _ _ _ _ _ Hw) as ->.
    cbn [map foldl].
    specialize (IH u1 _ (xadd v (of_count (length
      (events_in_bin (counts_cube m) i j k obs)))) Hfill).
    apply IH. cbn [counts_cube with_data data].
    rewrite at3_zip_with, Hv, Hw. simpl. do 3 f_equal.
    unfold events_in_bin. rewrite Hcard. f_equal.
    apply list_filter_iff. intros ev. by apply event_bin_in_bin.
Qed.

(** After [fill_events], the counts of every 3-D bin are its counts
    before plus, for each observation of the group in turn, the number of
    events of the observation that pass the energy selection and lie in
    the bin on the three axes. *)
Theorem fill_events_counts_per_bin (self self' : CubeBackgroundModel)
    (observation_table : ObservationTable) (i j k : nat) (v : xval) :
  fill_events self observation_table = Ok self' →
  at3 (data (counts_cube self)) i j k = Some v →
  at3 (data (counts_cube self')) i j k =
    Some (foldl xadd v
            (map (fun obs =>
                    of_count
                      (length (events_in_bin (counts_cube self) i j k obs)))
                 (rows observation_table))).
Proof.
  unfold fill_events. intros H Hv.
  apply bind_Ok in H as (sch & _ & H).
  apply bind_Ok in H as ([u' m'] & Hloop & [= <-]).
  by apply (fill_loop_counts _ None u' self m').
Qed.

Lemma fill_events_counts_per_bin_witness :
  ∃ self',
    fill_events zero_model two_observations = Ok self' ∧
    at3 (data (counts_cube self')) 0 0 1 =
      Some (xadd (xadd (Fin 0%Qc) (of_count 1)) (of_count 0)).
Proof.
  eexists. split.
  - vm_compute. reflexivity.
  - apply (fill_events_counts_per_bin zero_model _ two_observations
             0 0 1 (Fin 0%Qc)).
    + vm_compute. reflexivity.
    + reflexivity.
Defined.

(** ** Groups of observations with thresholds in TeV *)




Lemma fillable_filled_with (m : CubeBackgroundModel) (obs : observation)
    (v : Qc) :
  fillable m = true → fillable (filled_with m obs v) = true.
Proof.
  unfold fillable, filled_with. cbn zeta.
  cbn [counts_cube livetime_cube with_data data coordx_edges coordy_edges
       energy_edges].
  rewrite !andb_true_iff, !bool_decide_eq_true.
  intros ((((He & Hy) & Hx) & Hc) & Hl). repeat split; try done.
  - rewrite shape_of_zip_with; [done|]. rewrite Hc. symmetry.
    apply shape_of_counts.
  - rewrite shape_of_zip_with; [done|]. rewrite Hl. symmetry.
    apply shape_of_livetime_mask.
Qed.

Lemma fill_loop_TeV_cons (obs : observation) (l : list observation)
    (u : option string) (m : CubeBackgroundModel) (v : Qc) :
  aeff_LO_THRES obs = TeV_card v →
  fill_loop (obs :: l) (u, m) =
    if fillable m then fill_loop l (Some "TeV", filled_with m obs v)
    else Err ValueError.
Proof.
  intros Hcard. cbn [fill_loop]. rewrite (fill_observation_TeV _ _ _ _ Hcard).
  by destruct (fillable m).
Qed.




Lemma fill_loop_app (l1 l2 : list observation)
    (st : option string * CubeBackgroundModel) :
  fill_loop (l1 ++ l2) st = (st1 ← fill_loop l1 st; fill_loop l2 st1).
Proof.
  revert st. induction l1 as [|obs l1 IH]; intros st; [done|].
  cbn [app fill_loop]. destruct (fill_observation st obs); [|done].
  cbn [mbind result_bind]. apply IH.
Qed.

Lemma fill_loop_unit_irrelevant (l : list observation) (u u0 : option string)
    (m : CubeBackgroundModel) :
  starts_with_TeV l →
  (st ← fill_loop l (u, m); mret st.2) =
  (st ← fill_loop l (u0, m); mret (M := result) st.2).
Proof.
  destruct l as [|obs l]; [done|]. unfold starts_with_TeV. intros Hhead.
  cbn [fill_loop]. f_equal. f_equal.
  unfold fill_observation, read_energy_threshold. cbn [fst snd].
  destruct (aeff_LO_THRES obs) as [card|]; [|done].
  cbn [mbind result_bind]. by rewrite bool_decide_eq_true_2.
Qed.

(** Filling a model with a group in two batches gives what filling it
    with the whole group gives, a model or an error, when the header of
    the first observation of the second batch, if it has the card, gives
    its threshold in TeV. *)
Theorem fill_events_in_two_batches (self : CubeBackgroundModel)
    (name : string) (l1 l2 : list observation) :
  starts_with_TeV l2 →
  fill_events self (mkTable name (l1 ++ l2)) =
    (self1 ← fill_events self (mkTable name l1);
     fill_events self1 (mkTable name l2)).
Proof.
  intros Hhead. unfold fill_events. cbn [OBSERVATORY_NAME rows].
  destruct (storage_scheme name) as [sch|e] eqn:Hs; [|done].
  cbn [mbind result_bind]. rewrite fill_loop_app.
  destruct (fill_loop l1 (None, self)) as [[u1 m1]|e]; [|done].
  cbn [mbind result_bind mret result_ret snd].
  by apply fill_loop_unit_irrelevant.
Qed.

Lemma fill_events_in_two_batches_witness :
  fill_events zero_model two_observations =
    (self1 ← fill_events zero_model (mkTable "HESS" [three_event_observation]);
     fill_events self1
       (mkTable "HESS" [mkObs (TeV_card (qz 20)) (qz 900) []])).
Proof.
  apply (fill_events_in_two_batches zero_model "HESS"
           [three_event_observation]
           [mkObs (TeV_card (qz 20)) (qz 900) []]).
  reflexivity.
Defined.

(** ** The scan of the thresholds *)

Lemma read_energy_threshold_after_TeV (card : aeff_card) :
  read_energy_threshold (Some "TeV") (Some card) =
    Ok (Some "TeV", mkQuantity (LO_THRES card) "TeV").
Proof.
  unfold read_energy_threshold. cbn [mbind result_bind].
  by case_bool_decide.
Qed.

Lemma min_energy_threshold_loop_after_TeV (l : list observation)
    (cards : list aeff_card) (q : Qc) :
  map aeff_LO_THRES l = map Some cards →
  min_energy_threshold_loop l (Some "TeV") (mkQuantity q "TeV") =
    Ok (mkQuantity (capped_min q (map LO_THRES cards)) "TeV").
Proof.
  revert cards q. induction l as [|o l IH]; intros [|card cards] q Heq;
    simplify_eq/=; [done|].
  rewrite H, read_energy_threshold_after_TeV. simpl.
  unfold min_quantity. simpl.
  case_bool_decide; by apply IH.
Qed.

(** Once the header of the first observation has given its threshold in
    TeV, [_get_min_energy_threshold] takes the value of every later header
    as TeV, whatever its annotation (the unit of the turn before is used
    again), and answers the least of 999 TeV and all the values. *)
Theorem min_energy_threshold_after_TeV_header
    (observation_table : ObservationTable) (first : observation)
    (rest : list observation) (v0 : Qc) (cards : list aeff_card) :
  OBSERVATORY_NAME observation_table = "HESS" →
  rows observation_table = first :: rest →
  aeff_LO_THRES first = TeV_card v0 →
  map aeff_LO_THRES rest = map Some cards →
  let vs := v0 :: map LO_THRES cards in
  ∃ q, _get_min_energy_threshold observation_table =
         Ok (mkQuantity q "TeV") ∧
       (q ≤ qz 999)%Qc ∧
       (∀ v, v ∈ vs → (q ≤ v)%Qc) ∧
       (q = qz 999 ∨ q ∈ vs).
Proof.
  intros Hname Hrows Hfirst Hrest vs.
  exists (capped_min (qz 999) vs). split; [|apply capped_min_spec].
  unfold _get_min_energy_threshold, storage_scheme.
  rewrite Hname, Hrows. cbn [bool_decide mbind result_bind].
  simpl. rewrite Hfirst, read_energy_threshold_TeV. simpl.
  unfold min_quantity. simpl.
  case_bool_decide; by apply min_energy_threshold_loop_after_TeV.
Qed.

Lemma min_energy_threshold_after_TeV_header_witness :
  ∃ q, _get_min_energy_threshold
         (mkTable "HESS"
            [ mkObs (TeV_card (qz 2)) (qz 1800) [];
              mkObs (Some (mkCard (qz 300) "[GeV]")) (qz 1800) [] ]) =
         Ok (mkQuantity q "TeV") ∧
       (q ≤ qz 999)%Qc ∧
       (∀ v, v ∈ [qz 2; qz 300] → (q ≤ v)%Qc) ∧
       (q = qz 999 ∨ q ∈ [qz 2; qz 300]).
Proof.
  apply (min_energy_threshold_after_TeV_header
           (mkTable "HESS"
              [ mkObs (TeV_card (qz 2)) (qz 1800) [];
                mkObs (Some (mkCard (qz 300) "[GeV]")) (qz 1800) [] ])
           (mkObs (TeV_card (qz 2)) (qz 1800) [])
           [ mkObs (Some (mkCard (qz 300) "[GeV]")) (qz 1800) [] ]
           (qz 2) [mkCard (qz 300) "[GeV]"]); reflexivity.
Defined.

Lemma min_energy_threshold_loop_KeyError (l1 l2 : list observation)
    (obs : observation) (u : option string) (q : Quantity) :
  all_TeV l1 → aeff_LO_THRES obs = None →
  min_energy_threshold_loop (l1 ++ obs :: l2) u q = Err KeyError.
Proof.
  intros Hall Hobs. revert u q.
  induction Hall as [|o l1 [v Hv] Hall IH]; intros u q.
  - cbn [app min_energy_threshold_loop]. by rewrite Hobs.
  - cbn [app min_energy_threshold_loop].
    rewrite Hv, read_energy_threshold_TeV. cbn [mbind result_bind]. apply IH.
Qed.

Lemma fill_loop_KeyError (l1 l2 : list observation) (obs : observation)
    (u : option string) (m : CubeBackgroundModel) :
  fillable m = true → all_TeV l1 → aeff_LO_THRES obs = None →
  fill_loop (l1 ++ obs :: l2) (u, m) = Err KeyError.
Proof.
  intros Hm Hall Hobs. revert u m Hm.
  induction Hall as [|o l1 [v Hv] Hall IH]; intros u m Hm.
  - cbn [app fill_loop]. unfold fill_observation, read_energy_threshold.
    cbn [fst snd]. by rewrite Hobs.
  - cbn [app]. rewrite (fill_loop_TeV_cons _ _ _ _ _ Hv), Hm.
    apply IH. by apply fillable_filled_with.
Qed.

(** A header without the LO_THRES card stops both the scan of the
    thresholds and [fill_events] with a [KeyError], when the headers
    before it give their thresholds in TeV and the model can be filled:
    no threshold is assumed for the observation. *)
Theorem missing_threshold_card_raises_KeyError
    (self : CubeBackgroundModel) (observation_table : ObservationTable)
    (before after : list observation) (obs : observation) :
  OBSERVATORY_NAME observation_table = "HESS" →
  rows observation_table = before ++ obs :: after →
  all_TeV before →
  aeff_LO_THRES obs = None →
  fillable self = true →
  _get_min_energy_threshold observation_table = Err KeyError ∧
  fill_events self observation_table = Err KeyError.
Proof.
  intros Hname Hrows Hall Hobs Hm.
  unfold _get_min_energy_threshold, fill_events, storage_scheme.
  rewrite Hname, Hrows. cbn [bool_decide mbind result_bind]. simpl. split.
  - by apply min_energy_threshold_loop_KeyError.
  - by rewrite fill_loop_KeyError.
Qed.

Lemma missing_threshold_card_raises_KeyError_witness :
  _get_min_energy_threshold
    (mkTable "HESS" [three_event_observation; mkObs None (qz 900) []]) =
    Err KeyError ∧
  fill_events zero_model
    (mkTable "HESS" [three_event_observation; mkObs None (qz 900) []]) =
    Err KeyError.
Proof.
  apply (missing_threshold_card_raises_KeyError zero_model
           (mkTable "HESS" [three_event_observation; mkObs None (qz 900) []])
           [three_event_observation] [] (mkObs None (qz 900) [])).
  - reflexivity.
  - reflexivity.
  - repeat constructor. by eexists.
  - reflexivity.
  - vm_compute. reflexivity.
Defined.

(** ** The edges of the binning *)

Lemma qz_pos (n : Z) : 0 < n → (0 < qz n)%Qc.
Proof.
  intros Hn. unfold qz, Qclt. cbn [this Q2Qc]. rewrite !Qred_correct.
  unfold Qlt. simpl. lia.
Qed.

Lemma strictly_increasing_map_seqZ (f : Z → Qc) (n : nat) (a : Z) :
  (∀ i, a ≤ i → Qclt (f i) (f (i + 1))) →
  strictly_increasing (map f (seqZ a (Z.of_nat n))) = true.
Proof.
  intros Hf. revert a Hf. induction n as [|n IH]; intros a Hf; [done|].
  rewrite seqZ_cons by lia.
  replace (Z.pred (Z.of_nat (S n))) with (Z.of_nat n) by lia.
  specialize (IH (Z.succ a)).
  destruct n as [|n]; [done|].
  rewrite seqZ_cons in * by lia. cbn [map] in *.
  apply strictly_increasing_cons. split.
  - replace (Z.succ a) with (a + 1) by lia. apply Hf. lia.
  - apply IH. intros i Hi. apply Hf. lia.
Qed.

Lemma linear_edges_increasing (n : Z) (lo hi : Qc) :
  0 < n → (lo < hi)%Qc → strictly_increasing (linear_edges n lo hi) = true.
Proof.
  intros Hn Hlt. unfold linear_edges, np_arange.
  rewrite <- (Z2Nat.id (n + 1)) by lia.
  apply strictly_increasing_map_seqZ. intros i _.
  rewrite qz_add. change (qz 1) with 1%Qc.
  assert (Hd : (0 < (hi - lo) / qz n)%Qc).
  { apply Qclt_minus_iff in Hlt.
    unfold Qcdiv. apply Qcmult_pos_pos; [done|].
    apply Qcinv_pos. by apply qz_pos. }
  apply Qclt_minus_iff.
  replace ((qz i + 1) * ((hi - lo) / qz n) + lo
           + - (qz i * ((hi - lo) / qz n) + lo))%Qc
    with ((hi - lo) / qz n)%Qc by ring.
  done.
Qed.

Lemma log_edges_increasing (np_log np_exp : Qc → Qc) (n : Z) (lo hi : Qc) :
  (∀ a b, (a < b)%Qc → (np_exp a < np_exp b)%Qc) →
  0 < n → (np_log lo < np_log hi)%Qc →
  strictly_increasing (log_edges np_log np_exp n lo hi) = true.
Proof.
  intros Hexp Hn Hlt. unfold log_edges, np_arange.
  rewrite <- (Z2Nat.id (n + 1)) by lia.
  apply strictly_increasing_map_seqZ. intros i _. apply Hexp.
  rewrite qz_add. change (qz 1) with 1%Qc.
  assert (Hd : (0 < (np_log hi - np_log lo) / qz n)%Qc).
  { apply Qclt_minus_iff in Hlt.
    unfold Qcdiv. apply Qcmult_pos_pos; [done|].
    apply Qcinv_pos. by apply qz_pos. }
  apply Qclt_minus_iff.
  replace ((qz i + 1) * ((np_log hi - np_log lo) / qz n) + np_log lo
           + - (qz i * ((np_log hi - np_log lo) / qz n) + np_log lo))%Qc
    with ((np_log hi - np_log lo) / qz n)%Qc by ring.
  done.
Qed.

Lemma linear_edges_ends (n : Z) (lo hi : Qc) :
  0 < n →
  head (linear_edges n lo hi) = Some lo ∧
  last (linear_edges n lo hi) = Some hi.
Proof.
  intros Hn. unfold linear_edges, np_arange. split.
  - rewrite seqZ_cons by lia. simpl. f_equal.
    change (qz 0) with 0%Qc. ring.
  - change (map ?f ?l) with (f <$> l). rewrite fmap_last, seqZ_last by lia.
    simpl. f_equal. field. apply qz_neq_0. lia.
Qed.
Lemma bg_cube_shape_square (n_obs : Z) :
  (bg_cube_shape n_obs).1.2 = (bg_cube_shape n_obs).2.
Proof. unfold bg_cube_shape. by case_bool_decide. Qed.

Lemma define_cube_binning_Ok (np_log np_exp : Qc → Qc) (deg_per_rad : Qc)
    (observation_table : ObservationTable) (do_not_fill : bool)
    (method : string) (m : CubeBackgroundModel) :
  define_cube_binning np_log np_exp deg_per_rad observation_table
    do_not_fill method = Ok m →
  let shape := bg_cube_shape (len (rows observation_table)) in
  ∃ energy_min,
    energy_min_of observation_table method = Ok energy_min ∧
    shared_binning m ∧
    edges_of (counts_cube m) =
      (linear_edges shape.2 (- qfrac 7 100 * deg_per_rad)%Qc
         (qfrac 7 100 * deg_per_rad)%Qc,
       linear_edges shape.1.2 (- qfrac 7 100 * deg_per_rad)%Qc
         (qfrac 7 100 * deg_per_rad)%Qc,
       log_edges np_log np_exp shape.1.1 (value energy_min) (qz 80)).
Proof.
  intros H. cbn zeta. unfold define_cube_binning in H.
  destruct (bg_cube_shape _) as [[ne ny] nx].
  apply bind_Ok in H as (energy_min & Hmin & H).
  exists energy_min. split; [done|].
  by apply set_cube_binning_shared in H.
Qed.

Lemma define_cube_binning_returns (np_log np_exp : Qc → Qc)
    (deg_per_rad : Qc) (observation_table : ObservationTable)
    (do_not_fill : bool) (method : string) (energy_min : Quantity) :
  energy_min_of observation_table method = Ok energy_min →
  ∃ m, define_cube_binning np_log np_exp deg_per_rad observation_table
         do_not_fill method = Ok m.
Proof.
  intros Hmin.
  destruct (define_cube_binning_energy_range np_log np_exp deg_per_rad
              observation_table do_not_fill method energy_min Hmin)
    as (m & Hm & _).
  by exists m.
Qed.

Lemma define_cube_binning_square (np_log np_exp : Qc → Qc)
    (deg_per_rad : Qc) (observation_table : ObservationTable)
    (do_not_fill : bool) (method : string) (m : CubeBackgroundModel) :
  (0 < deg_per_rad)%Qc →
  define_cube_binning np_log np_exp deg_per_rad observation_table
    do_not_fill method = Ok m →
  coordx_edges (counts_cube m) = coordy_edges (counts_cube m) ∧
  strictly_increasing (coordx_edges (counts_cube m)) = true.
Proof.
  intros Hdeg H.
  apply define_cube_binning_Ok in H as (energy_min & _ & _ & Hedges).
  cbn zeta in Hedges. unfold edges_of in Hedges.
  injection Hedges as Hx Hy _. rewrite Hx, Hy.
  pose proof (bg_cube_shape_bounds (len (rows observation_table))) as Hb.
  destruct Hb as (_ & _ & Hnx); [unfold len; lia|].
  split; [by rewrite bg_cube_shape_square|].
  apply linear_edges_increasing; [lia|].
  apply Qclt_minus_iff.
  replace (qfrac 7 100 * deg_per_rad + - (- qfrac 7 100 * deg_per_rad))%Qc
    with (qfrac 7 100 * deg_per_rad + qfrac 7 100 * deg_per_rad)%Qc by ring.
  assert ((0 < qfrac 7 100 * deg_per_rad)%Qc)
    by by apply Qcmult_pos_pos.
  by apply Qcplus_pos_pos.
Qed.

(** The spatial edges of the binning that [define_cube_binning] gives:
    the X and the Y edges are the same, they run from -0.07 rad to
    0.07 rad, in degrees, and they increase strictly, whatever the group
    and the method. *)
Theorem define_cube_binning_spatial_edges (np_log np_exp : Qc → Qc)
    (deg_per_rad : Qc) (observation_table : ObservationTable)
    (do_not_fill : bool) (method : string) (m : CubeBackgroundModel) :
  (0 < deg_per_rad)%Qc →
  define_cube_binning np_log np_exp deg_per_rad observation_table
    do_not_fill method = Ok m →
  coordx_edges (counts_cube m) = coordy_edges (counts_cube m) ∧
  head (coordx_edges (counts_cube m)) =
    Some (- qfrac 7 100 * deg_per_rad)%Qc ∧
  last (coordx_edges (counts_cube m)) =
    Some (qfrac 7 100 * deg_per_rad)%Qc ∧
  strictly_increasing (coordx_edges (counts_cube m)) = true.
Proof.
  intros Hdeg H.
  destruct (define_cube_binning_square _ _ _ _ _ _ _ Hdeg H) as [Hxy Hinc].
  split; [done|]. apply and_assoc. split; [|done].
  apply define_cube_binning_Ok in H as (energy_min & _ & _ & Hedges).
  cbn zeta in Hedges. unfold edges_of in Hedges.
  injection Hedges as Hx _ _. rewrite Hx.
  pose proof (bg_cube_shape_bounds (len (rows observation_table))) as Hb.
  destruct Hb as (_ & _ & Hnx); [unfold len; lia|].
  apply linear_edges_ends. lia.
Qed.

Lemma define_cube_binning_spatial_edges_witness :
  ∃ m,
    define_cube_binning (fun q => q) (fun q => q) (qz 57) two_observations
      false "default" = Ok m ∧
    coordx_edges (counts_cube m) = coordy_edges (counts_cube m) ∧
    head (coordx_edges (counts_cube m)) = Some (- qfrac 7 100 * qz 57)%Qc ∧
    last (coordx_edges (counts_cube m)) = Some (qfrac 7 100 * qz 57)%Qc ∧
    strictly_increasing (coordx_edges (counts_cube m)) = true.
Proof.
  eexists. split.
  - vm_compute. reflexivity.
  - apply (define_cube_binning_spatial_edges (fun q => q) (fun q => q)
             (qz 57) two_observations false "default").
    + reflexivity.
    + vm_compute. reflexivity.
Defined.

(** ** Groups that can be filled *)

Lemma fill_loop_fillable (l : list observation) (u : option string)
    (m : CubeBackgroundModel) :
  all_TeV l → fillable m = true →
  ∃ u' m', fill_loop l (u, m) = Ok (u', m') ∧ fillable m' = true.
Proof.
  intros Hall. revert u m.
  induction Hall as [|o l [v Hv] Hall IH]; intros u m Hm.
  - by exists u, m.
  - rewrite (fill_loop_TeV_cons _ _ _ _ _ Hv), Hm.
    apply IH. by apply fillable_filled_with.
Qed.

(** [fill_events] returns for every group of the H.E.S.S. array whose
    headers give their thresholds in TeV, when the edges of the counts
    cube increase and the data of the counts and livetime cubes have the
    shape of the edges; the model that it returns is again of that kind,
    so that it can be filled with a further group. *)
Theorem fill_events_returns_fillable (self : CubeBackgroundModel)
    (observation_table : ObservationTable) :
  OBSERVATORY_NAME observation_table = "HESS" →
  all_TeV (rows observation_table) →
  fillable self = true →
  ∃ self', fill_events self observation_table = Ok self' ∧
           fillable self' = true.
Proof.
  intros Hname Hall Hm. unfold fill_events, storage_scheme.
  rewrite Hname. cbn [bool_decide mbind result_bind]. simpl.
  destruct (fill_loop_fillable _ None self Hall Hm) as (u' & m' & -> & Hm').
  by exists m'.
Qed.

Lemma fill_events_returns_fillable_witness :
  ∃ self', fill_events zero_model two_observations = Ok self' ∧
           fillable self' = true.
Proof.
  apply (fill_events_returns_fillable zero_model two_observations).
  - reflexivity.
  - repeat constructor; by eexists.
  - vm_compute. reflexivity.
Defined.

(** A model fresh from [define_cube_binning] can be filled with a group
    of the H.E.S.S. array whose headers give their thresholds in TeV:
    [fill_events] returns, provided the degrees of a radian are positive,
    [np.exp] increases and the logarithm of the minimum energy lies below
    that of 80 TeV. *)
Theorem define_cube_binning_then_fill_events (np_log np_exp : Qc → Qc)
    (deg_per_rad : Qc) (binned_table filled_table : ObservationTable)
    (do_not_fill : bool) (method : string) (energy_min : Quantity) :
  (0 < deg_per_rad)%Qc →
  (∀ a b, (a < b)%Qc → (np_exp a < np_exp b)%Qc) →
  energy_min_of binned_table method = Ok energy_min →
  (np_log (value energy_min) < np_log (qz 80))%Qc →
  OBSERVATORY_NAME filled_table = "HESS" →
  all_TeV (rows filled_table) →
  ∃ m m',
    define_cube_binning np_log np_exp deg_per_rad binned_table
      do_not_fill method = Ok m ∧
    fill_events m filled_table = Ok m'.
Proof.
  intros Hdeg Hexp Hmin Hlog Hname Hall.
  destruct (define_cube_binning_returns np_log np_exp deg_per_rad
              binned_table do_not_fill method energy_min Hmin) as [m Hm].
  exists m.
  pose proof (define_cube_binning_square _ _ _ _ _ _ _ Hdeg Hm)
    as (Hxy & Hx).
  pose proof Hm as Hform.
  apply define_cube_binning_Ok in Hform as (emin & Hmin' & Hshared & Hedges).
  assert (emin = energy_min) as -> by congruence.
  cbn zeta in Hedges. unfold edges_of in Hedges.
  assert (He : strictly_increasing (energy_edges (counts_cube m)) = true).
  { injection Hedges as _ _ ->.
    pose proof (bg_cube_shape_bounds (len (rows binned_table))) as Hb.
    destruct Hb as (Hne & _ & _); [unfold len; lia|].
    apply log_edges_increasing; [done|lia|done]. }
  assert (Hm' : fillable m = true).
  { destruct Hshared as ((_ & Hc) & (_ & Hl) & _).
    unfold has_shape, edges_of in Hc, Hl. cbn [fst snd] in Hc, Hl.
    unfold fillable. cbn zeta.
    rewrite !andb_true_iff, !bool_decide_eq_true.
    repeat split; try done. by rewrite <- Hxy. }
  unfold fill_events, storage_scheme.
  rewrite Hname. cbn [bool_decide mbind result_bind]. simpl.
  destruct (fill_loop_fillable _ None m Hall Hm') as (u' & m' & -> & _).
  by exists m'.
Qed.

Lemma define_cube_binning_then_fill_events_witness :
  ∃ m m',
    define_cube_binning (fun q => q) (fun q => q) (qz 57) two_observations
      false "default" = Ok m ∧
    fill_events m two_observations = Ok m'.
Proof.
  apply (define_cube_binning_then_fill_events (fun q => q) (fun q => q)
           (qz 57) two_observations two_observations false "default"
           (mkQuantity (qfrac 1 10) "TeV")).
  - reflexivity.
  - intros a b Hab. exact Hab.
  - reflexivity.
  - reflexivity.
  - reflexivity.
  - repeat constructor; by eexists.
Defined.

(** ** Smoothing empty and flat images *)

Lemma pixel_all_zero (im : image) (y x : nat) :
  all_zero im → pixel im y x = Fin 0%Qc.
Proof.
  intros Hz. unfold pixel.
  destruct (im !! y) as [row|] eqn:Hrow; [|done]. simpl.
  destruct (row !! x) as [v|] eqn:Hv; [|done]. simpl.
  eapply Forall_lookup_1 in Hz; [|done].
  by eapply Forall_lookup_1 in Hz.
Qed.

Lemma xsum_weighted_const (c : Qc) (l : list (Z * Z * Z)) :
  xsum (map (fun t => xmul (Fin (qz t.2)) (Fin c)) l) =
    Fin (Qcmult (qz (foldr (fun t s => t.2 + s) 0 l)) c).
Proof.
  induction l as [|t l IH].
  - simpl. f_equal. change (qz 0) with 0%Qc. ring.
  - cbn [map foldr]. rewrite xsum_cons, IH. simpl. f_equal.
    rewrite qz_add. ring.
Qed.

Lemma smooth_once_all_zero (im : image) :
  all_zero im → smooth_once im = im.
Proof.
  intros Hz. unfold smooth_once, ndimage_convolve.
  apply list_eq. intros y. rewrite list_lookup_imap.
  destruct (im !! y) as [row|] eqn:Hrow; [|done].
  cbn [fmap option_fmap option_map]. f_equal.
  apply list_eq. intros x. rewrite list_lookup_imap.
  destruct (row !! x) as [v|] eqn:Hv; [|done].
  cbn [fmap option_fmap option_map]. f_equal.
  erewrite map_ext; [|intros t; by rewrite pixel_all_zero].
  rewrite xsum_weighted_const.
  eapply Forall_lookup_1 in Hz; [|done].
  eapply Forall_lookup_1 in Hz; [|done]. rewrite Hz. f_equal; ring.
Qed.

Lemma smooth_times_all_zero (n : nat) (im : image) :
  all_zero im → smooth_times n im = im.
Proof.
  intros Hz. induction n as [|n IH]; [done|].
  by rewrite smooth_times_S, smooth_once_all_zero.
Qed.

Lemma scale_NaN (im : image) :
  scale NaN im = map (map (fun _ => NaN)) im.
Proof.
  unfold scale. apply map_ext. intros row. apply map_ext.
  intros v. by destruct v.
Qed.

Lemma bin_area_finite (sr_per_deg2 : Qc) (c : Cube) (e : nat) (area : image) :
  bin_area sr_per_deg2 c !! e = Some area →
  Forall (Forall (fun v => ∃ q, v = Fin q)) area.
Proof.
  unfold bin_area. rewrite lookup_map.
  destruct (upto_last (energy_edges c) !! e); [|done].
  intros [= <-]. apply Forall_forall. intros row Hrow.
  apply list_elem_of_fmap in Hrow as (dy & -> & _).
  apply Forall_forall. intros v Hv.
  apply list_elem_of_fmap in Hv as (dx & -> & _). by eexists.
Qed.

Lemma xsum_zero_row (row arow : list xval) :
  Forall (fun v => v = Fin 0%Qc) row →
  Forall (fun v => ∃ q, v = Fin q) arow →
  xsum (zip_with xmul row arow) = Fin 0%Qc.
Proof.
  intros Hrow. revert arow.
  induction Hrow as [|v row -> Hrow IH]; intros arow Harow; [done|].
  destruct Harow as [|a arow [q ->] Harow]; [done|].
  cbn [zip_with]. rewrite xsum_cons, IH by done. simpl. f_equal; ring.
Qed.

Lemma image_sum_all_zero (im area : image) :
  all_zero im →
  Forall (Forall (fun v => ∃ q, v = Fin q)) area →
  image_sum (zip_with (zip_with xmul) im area) = Fin 0%Qc.
Proof.
  intros Him. revert area.
  induction Him as [|row im Hrow Him IH]; intros area Harea; [done|].
  destruct Harea as [|arow area Harow Harea]; [done|].
  unfold image_sum in *. cbn [zip_with map].
  rewrite xsum_cons, IH, xsum_zero_row by done. simpl. f_equal; ring.
Qed.

(** [smooth] turns an image of the background cube whose pixels are all
    zero into an image of nan: its integral is zero before and after the
    passes, and the image is multiplied by zero divided by zero. *)
Theorem smooth_zero_image_becomes_nan (sr_per_deg2 : Qc)
    (self self' : CubeBackgroundModel) (i_energy : nat) (im : image) :
  smooth sr_per_deg2 self = Ok self' →
  data (background_cube self) !! i_energy = Some im →
  all_zero im →
  data (background_cube self') !! i_energy =
    Some (map (map (fun _ => NaN)) im).
Proof.
  intros Hsmooth Him Hz.
  rewrite (smooth_spec _ _ (smooth_Ok_shape _ _ _ Hsmooth)) in Hsmooth.
  injection Hsmooth as <-. cbn [background_cube with_data data].
  assert (Hsm : smoothed_data self !! i_energy = Some im).
  { unfold smoothed_data. rewrite lookup_map, Him. simpl.
    by rewrite smooth_times_all_zero. }
  unfold scaled_data. rewrite list_lookup_imap, Hsm. simpl. f_equal.
  rewrite <- scale_NaN. f_equal.
  unfold scale_factors. rewrite lookup_zip_with, !integrals_lookup, Him, Hsm.
  simpl.
  destruct (bin_area sr_per_deg2 (background_cube self) !! i_energy)
    as [area|] eqn:Harea; [|done]. simpl.
  by rewrite image_sum_all_zero by (done || by eapply bin_area_finite).
Qed.

Lemma smooth_zero_image_becomes_nan_witness :
  ∃ self',
    smooth (qfrac 1 3283) empty_bin_model = Ok self' ∧
    data (background_cube self') !! 1%nat = Some [[NaN; NaN]].
Proof.
  eexists. split.
  - vm_compute. reflexivity.
  - apply (smooth_zero_image_becomes_nan (qfrac 1 3283) empty_bin_model _
             1 [[Fin 0%Qc; Fin 0%Qc]]).
    + vm_compute. reflexivity.
    + reflexivity.
    + repeat constructor.
Defined.

Lemma reflect_lt (n : nat) (i : Z) : (0 < n)%nat → (reflect n i < n)%nat.
Proof.
  intros Hn. unfold reflect. case_bool_decide; [lia|].
  pose proof (Z.mod_pos_bound i (2 * Z.of_nat n)) as Hm.
  case_bool_decide; lia.
Qed.

Lemma pixel_flat (h w : nat) (c : Qc) (y x : nat) :
  (y < h)%nat → (x < w)%nat → pixel (flat h w c) y x = Fin c.
Proof.
  intros Hy Hx. unfold pixel, flat.
  rewrite lookup_replicate_2 by done. simpl.
  by rewrite lookup_replicate_2.
Qed.

Lemma smooth_once_flat (h w : nat) (c : Qc) :
  smooth_once (flat h w c) = flat h w (qz 25 * c)%Qc.
Proof.
  unfold smooth_once, ndimage_convolve, flat.
  apply list_eq. intros y. rewrite list_lookup_imap.
  destruct (decide (y < h)%nat) as [Hy|Hy];
    [|by rewrite !(proj1 (lookup_replicate_None _ _ _)) by lia].
  rewrite !lookup_replicate_2 by done.
  cbn [fmap option_fmap option_map]. f_equal.
  apply list_eq. intros x. rewrite list_lookup_imap.
  destruct (decide (x < w)%nat) as [Hx|Hx];
    [|by rewrite !(proj1 (lookup_replicate_None _ _ _)) by lia].
  rewrite !lookup_replicate_2 by done.
  cbn [fmap option_fmap option_map]. f_equal.
  erewrite map_ext.
  2:{ intros t. rewrite !length_replicate.
      change (replicate h (replicate w (Fin c))) with (flat h w c).
      rewrite pixel_flat by (apply reflect_lt; lia). done. }
  by rewrite xsum_weighted_const.
Qed.

Lemma smooth_times_flat (n : nat) (h w : nat) (c : Qc) :
  ∃ k, k ≠ 0%Qc ∧ smooth_times n (flat h w c) = flat h w (k * c)%Qc.
Proof.
  revert c. induction n as [|n IH]; intros c.
  - exists 1%Qc. split; [done|]. simpl. f_equal. ring.
  - destruct (IH (qz 25 * c)%Qc) as (k & Hk & Heq).
    exists (k * qz 25)%Qc. split.
    + intros H. apply Qcmult_integral in H as [H|H]; [done|].
      by apply (qz_neq_0 25) in H.
    + rewrite smooth_times_S, smooth_once_flat, Heq. f_equal. ring.
Qed.

Lemma scale_flat (h w : nat) (c k : Qc) :
  scale (Fin k) (flat h w c) = flat h w (c * k)%Qc.
Proof.
  unfold scale, flat.
  change (map ?f ?l) with (f <$> l). rewrite fmap_replicate.
  change (map ?f ?l) with (f <$> l). by rewrite fmap_replicate.
Qed.

(** Over exact arithmetic, [smooth] gives back a flat image as it is: an
    image of the background cube whose pixels all hold the same number,
    with an integral that is not zero, is the same after [smooth].  The
    passes multiply every pixel by 25 (the mirrored boundary keeps the
    image flat) and the rescaling divides by the same power of 25; in
    floating point the two agree up to rounding only. *)
Theorem smooth_keeps_flat_image (sr_per_deg2 : Qc)
    (self self' : CubeBackgroundModel) (i_energy h w : nat) (c q0 : Qc) :
  smooth sr_per_deg2 self = Ok self' →
  data (background_cube self) !! i_energy = Some (flat h w c) →
  integrals sr_per_deg2 (background_cube self)
    (data (background_cube self)) !! i_energy = Some (Fin q0) →
  q0 ≠ 0%Qc →
  data (background_cube self') !! i_energy = Some (flat h w c).
Proof.
  intros Hsmooth Him H0 Hq0.
  rewrite (smooth_spec _ _ (smooth_Ok_shape _ _ _ Hsmooth)) in Hsmooth.
  injection Hsmooth as <-. cbn [background_cube with_data data].
  destruct (smooth_times_flat
              (Z.to_nat (n_smooth_of (np_sum (data (counts_cube self)))))
              h w c) as (k & Hk & Hflat).
  assert (Hsm : smoothed_data self !! i_energy = Some (flat h w (k * c)%Qc)).
  { unfold smoothed_data. rewrite lookup_map, Him. simpl. by rewrite Hflat. }
  assert (H1 : integrals sr_per_deg2 (background_cube self)
                 (smoothed_data self) !! i_energy = Some (Fin (k * q0)%Qc)).
  { rewrite integrals_lookup in H0 |- *. rewrite Him in H0. rewrite Hsm.
    simpl in *.
    destruct (bin_area sr_per_deg2 (background_cube self) !! i_energy)
      as [area|]; [|done].
    simpl in *. injection H0 as H0. f_equal.
    replace (k * c)%Qc with (c * k)%Qc by ring.
    rewrite <- scale_flat. by apply image_sum_scale. }
  unfold scaled_data. rewrite list_lookup_imap, Hsm. simpl. f_equal.
  unfold scale_factors. rewrite lookup_zip_with, H0, H1. simpl.
  rewrite bool_decide_eq_false_2.
  2:{ intros H. apply Qcmult_integral in H as [H|H]; done. }
  rewrite scale_flat. f_equal. by field.
Qed.

Lemma smooth_keeps_flat_image_witness :
  ∃ self',
    smooth (qfrac 1 3283) (two_pixel_model 7 3 3) = Ok self' ∧
    data (background_cube self') !! 0%nat = Some (flat 1 2 (qz 3)).
Proof.
  eexists. split.
  - vm_compute. reflexivity.
  - apply (smooth_keeps_flat_image (qfrac 1 3283) (two_pixel_model 7 3 3) _
             0 1 2 (qz 3) (qfrac 6 3283)).
    + vm_compute. reflexivity.
    + reflexivity.
    + vm_compute. reflexivity.
    + discriminate.
Defined.

(** ** Writing a model *)

Lemma xsum_replicate_zero (n : nat) : xsum (replicate n (Fin 0%Qc)) = Fin 0%Qc.
Proof.
  induction n as [|n IH]; [done|].
  cbn [replicate]. rewrite xsum_cons, IH. simpl. f_equal; ring.
Qed.

Lemma image_sum_zeros (ny nx : nat) :
  image_sum (replicate ny (replicate nx (Fin 0%Qc))) = Fin 0%Qc.
Proof.
  unfold image_sum. change (map ?f ?l) with (f <$> l).
  by rewrite fmap_replicate, xsum_replicate_zero, xsum_replicate_zero.
Qed.

Lemma np_sum_zeros (ne ny nx : nat) :
  np_sum (replicate ne (replicate ny (replicate nx (Fin 0%Qc)))) = Fin 0%Qc.
Proof.
  unfold np_sum. change (map ?f ?l) with (f <$> l).
  by rewrite fmap_replicate, image_sum_zeros, xsum_replicate_zero.
Qed.

(** A model fresh from [set_cube_binning] is written as its background
    cube alone, whatever the format: [write] hands the file name and the
    format to [Cube.write] of the background cube, saves neither the
    counts nor the livetime cube, and does not check the format itself. *)
Theorem write_after_set_cube_binning (HDU : Type) (PrimaryHDU : HDU)
    (Cube_to_fits_table : Cube → result HDU)
    (Cube_write : Cube → string → string → result ())
    (HDUList_writeto : list HDU → string → result ())
    (detx_edges dety_edges energy_edges : list Qc) (do_not_fill : bool)
    (self : CubeBackgroundModel) (outfile format : string) :
  set_cube_binning detx_edges dety_edges energy_edges do_not_fill = Ok self →
  write HDU PrimaryHDU Cube_to_fits_table Cube_write HDUList_writeto
    self outfile format =
  Cube_write (background_cube self) outfile format.
Proof.
  unfold set_cube_binning, np_zeros. case_bool_decide; [done|].
  intros [= <-]. unfold write. cbn [counts_cube data].
  by rewrite np_sum_zeros.
Qed.

Lemma write_after_set_cube_binning_witness :
  write string "PRIMARY" (fun c => Ok (scheme c)) (fun _ _ _ => Ok tt)
    (fun _ _ => Ok tt) zero_model "bg.fits" "no such format" = Ok tt.
Proof.
  apply (write_after_set_cube_binning string "PRIMARY"
           (fun c => Ok (scheme c)) (fun _ _ _ => Ok tt) (fun _ _ => Ok tt)
           [qz 0; qz 1; qz 2] [qz 0; qz 1] [qz 1; qz 10] false zero_model
           "bg.fits" "no such format").
  vm_compute. reflexivity.
Defined.

(** ** The lookup of the observation groups *)

Lemma len_filled_upto (f : Z → Z) (n c : Z) :
  0 ≤ n → len (filled_upto f n c) = n.
Proof.
  intros Hn. unfold len, filled_upto. rewrite length_map, length_seqZ. lia.
Qed.

Lemma filled_upto_lookup (f : Z → Z) (n c : Z) (i : nat) :
  Z.of_nat i < n →
  filled_upto f n c !! i =
    Some (if bool_decide (Z.of_nat i < c) then f (Z.of_nat i) else 0).
Proof.
  intros Hi. unfold filled_upto. rewrite lookup_map, lookup_seqZ_lt by lia.
  done.
Qed.

Lemma setitem_filled_upto (f : Z → Z) (n c v : Z) :
  0 ≤ c < n → v = f c →
  setitem (filled_upto f n c) c v = Ok (filled_upto f n (c + 1)).
Proof.
  intros Hc ->. unfold setitem.
  rewrite len_filled_upto, bool_decide_eq_true_2 by lia. f_equal.
  apply list_eq. intros i.
  destruct (decide (Z.of_nat i < n)) as [Hi|Hi].
  - rewrite list_lookup_insert, !filled_upto_lookup by done.
    assert (Hlen : length (filled_upto f n c) = Z.to_nat n).
    { unfold filled_upto. rewrite length_map, length_seqZ. done. }
    destruct (decide (Z.to_nat c = i ∧ _)) as [[<- _]|Hne].
    + rewrite bool_decide_eq_true_2 by lia. f_equal. f_equal. lia.
    + assert (Z.to_nat c ≠ i) by (intros <-; apply Hne; split; lia).
      f_equal. repeat case_bool_decide; done || lia.
  - rewrite list_lookup_insert_ne.
    + unfold filled_upto.
      by rewrite !lookup_map, !lookup_seqZ_ge by lia.
    + lia.
Qed.

Lemma fill_lookup_row_upto (n_az n alt_id az_id : Z) :
  0 ≤ alt_id → 0 ≤ az_id < n_az → alt_id * n_az + az_id < n →
  fill_lookup_row alt_id az_id
    (lookup_upto n_az n (alt_id * n_az + az_id), alt_id * n_az + az_id) =
  Ok (lookup_upto n_az n (alt_id * n_az + az_id + 1),
      alt_id * n_az + az_id + 1).
Proof.
  intros Halt Haz Hn. unfold fill_lookup_row, lookup_upto.
  cbn [fst snd GROUP_ID ALT_ID AZ_ID].
  assert (Hd : alt_id = (alt_id * n_az + az_id) `div` n_az)
    by (apply (Z.div_unique_pos _ _ _ az_id); lia).
  assert (Hm : az_id = (alt_id * n_az + az_id) `mod` n_az)
    by (apply (Z.mod_unique_pos _ _ alt_id); lia).
  by rewrite !setitem_filled_upto by (done || nia).
Qed.

Lemma fill_lookup_inner (n_az n alt_id : Z) (b : nat) :
  0 ≤ alt_id → Z.of_nat b ≤ n_az → alt_id * n_az + Z.of_nat b ≤ n →
  for_each (seqZ 0 (Z.of_nat b))
    (fun az_id st' => fill_lookup_row alt_id az_id st')
    (lookup_upto n_az n (alt_id * n_az), alt_id * n_az) =
  Ok (lookup_upto n_az n (alt_id * n_az + Z.of_nat b),
      alt_id * n_az + Z.of_nat b).
Proof.
  intros Halt. induction b as [|b IH]; intros Hb Hn.
  - simpl. by rewrite Z.add_0_r.
  - rewrite seqZ_snoc, for_each_app, IH by lia.
    cbn [mbind result_bind for_each].
    rewrite fill_lookup_row_upto by lia.
    by replace (alt_id * n_az + Z.of_nat (S b))
      with (alt_id * n_az + Z.of_nat b + 1) by lia.
Qed.

Lemma fill_lookup_outer (n_az n : Z) (a : nat) :
  0 ≤ n_az → Z.of_nat a * n_az ≤ n →
  for_each (seqZ 0 (Z.of_nat a))
    (fun alt_id st =>
       for_each (seqZ 0 n_az)
         (fun az_id st' => fill_lookup_row alt_id az_id st') st)
    (lookup_upto n_az n 0, 0) =
  Ok (lookup_upto n_az n (Z.of_nat a * n_az), Z.of_nat a * n_az).
Proof.
  intros Haz. induction a as [|a IH]; intros Hn; [done|].
  rewrite seqZ_snoc, for_each_app, IH by nia.
  cbn [mbind result_bind for_each].
  rewrite <- (Z2Nat.id n_az) at 1 by done.
  rewrite fill_lookup_inner by nia.
  cbn [mbind result_bind]. rewrite Z2Nat.id by done.
  by replace (Z.of_nat (S a) * n_az)
    with (Z.of_nat a * n_az + n_az) by lia.
Qed.

Lemma filled_upto_0 (f : Z → Z) (n : Z) :
  filled_upto f n 0 = replicate (Z.to_nat n) 0.
Proof.
  apply list_eq. intros i.
  destruct (decide (Z.of_nat i < n)) as [Hi|Hi].
  - rewrite filled_upto_lookup, lookup_replicate_2 by lia.
    by rewrite bool_decide_eq_false_2 by lia.
  - unfold filled_upto. rewrite lookup_map, lookup_seqZ_ge by lia.
    symmetry. apply lookup_replicate_None. lia.
Qed.

Lemma lookup_obs_groups_michi_Ok (altitude_edges azimuth_edges : list Z) :
  1 ≤ len altitude_edges → 1 ≤ len azimuth_edges →
  let n_az := len azimuth_edges - 1 in
  let n := (len altitude_edges - 1) * n_az in
  lookup_obs_groups_michi altitude_edges azimuth_edges n =
    Ok (lookup_upto n_az n n).
Proof.
  intros Halt Haz n_az n. unfold lookup_obs_groups_michi, np_zeros_int.
  rewrite bool_decide_eq_false_2 by nia. cbn [mbind result_bind].
  assert (mkLookup (replicate (Z.to_nat n) 0) (replicate (Z.to_nat n) 0)
            (replicate (Z.to_nat n) 0) = lookup_upto n_az n 0) as ->
    by (unfold lookup_upto; by rewrite !filled_upto_0).
  unfold np_arange.
  rewrite <- (Z2Nat.id (len altitude_edges - 1)) at 1 by lia.
  fold n_az. rewrite (fill_lookup_outer n_az n) by (subst n n_az; nia).
  cbn [mbind result_bind mret result_ret fst].
  by rewrite Z2Nat.id by lia.
Qed.
Lemma filled_upto_full (f : Z → Z) (n : Z) (i : nat) (x : Z) :
  filled_upto f n n !! i = Some x ↔ Z.of_nat i < n ∧ x = f (Z.of_nat i).
Proof.
  destruct (decide (Z.of_nat i < n)) as [Hi|Hi].
  - rewrite filled_upto_lookup, bool_decide_eq_true_2 by done.
    split; [by intros [= <-]|by intros [_ ->]].
  - unfold filled_upto. rewrite lookup_map, lookup_seqZ_ge by lia.
    split; [done|by intros [? _]].
Qed.

Lemma first_where_filled (n g : Z) :
  0 ≤ g < n → first_where (filled_upto (fun i => i) n n) g = Ok g.
Proof.
  intros Hg. unfold first_where.
  assert (list_find (fun x => x = g) (filled_upto (fun i => i) n n) =
          Some (Z.to_nat g, g)) as ->.
  { apply list_find_Some. split; [apply filled_upto_full; lia|].
    split; [done|]. intros j y Hy Hj.
    apply filled_upto_full in Hy as [_ ->]. lia. }
  f_equal. lia.
Qed.

Lemma first_where_missing (n g : Z) :
  ¬ (0 ≤ g < n) →
  first_where (filled_upto (fun i => i) n n) g = Err IndexError.
Proof.
  intros Hg. unfold first_where.
  assert (list_find (fun x => x = g) (filled_upto (fun i => i) n n) = None)
    as ->; [|done].
  apply list_find_None, Forall_lookup. intros i x Hx.
  apply filled_upto_full in Hx as [Hi ->]. lia.
Qed.

(** The lookup table of the script takes a group ID back to the altitude
    and azimuth bins it was numbered from: the group of the altitude bin
    [i_alt] and the azimuth bin [i_az] has the ID [i_alt * n_az + i_az],
    and [look_obs_groups_michi] gives [(i_alt, i_az)] for it.  A group ID
    that is not in the table raises [IndexError]. *)
Theorem look_obs_groups_michi_round_trip
    (altitude_edges azimuth_edges : list Z) :
  1 ≤ len altitude_edges → 1 ≤ len azimuth_edges →
  let n_alt := len altitude_edges - 1 in
  let n_az := len azimuth_edges - 1 in
  ∃ table,
    lookup_obs_groups_michi altitude_edges azimuth_edges (n_alt * n_az) =
      Ok table ∧
    (∀ i_alt i_az, 0 ≤ i_alt < n_alt → 0 ≤ i_az < n_az →
       look_obs_groups_michi table (i_alt * n_az + i_az) =
         Ok (i_alt, i_az)) ∧
    (∀ group_id, ¬ (0 ≤ group_id < n_alt * n_az) →
       look_obs_groups_michi table group_id = Err IndexError).
Proof.
  intros Halt Haz n_alt n_az.
  exists (lookup_upto n_az (n_alt * n_az) (n_alt * n_az)).
  split; [by apply lookup_obs_groups_michi_Ok|]. split.
  - intros i_alt i_az Hi_alt Hi_az.
    unfold look_obs_groups_michi, lookup_upto. cbn [GROUP_ID ALT_ID AZ_ID].
    rewrite first_where_filled by nia. cbn [mbind result_bind].
    unfold getitem.
    rewrite !filled_upto_lookup by nia.
    rewrite !bool_decide_eq_true_2 by nia.
    cbn [mbind result_bind mret result_ret]. rewrite Z2Nat.id by nia.
    do 2 f_equal.
    + symmetry. apply (Z.div_unique_pos _ _ _ i_az); lia.
    + symmetry. apply (Z.mod_unique_pos _ _ i_alt); lia.
  - intros group_id Hg.
    unfold look_obs_groups_michi, lookup_upto. cbn [GROUP_ID].
    by rewrite first_where_missing.
Qed.

Lemma look_obs_groups_michi_round_trip_witness :
  ∃ table,
    lookup_obs_groups_michi altitude_edges azimuth_edges (14 * 2) =
      Ok table ∧
    (∀ i_alt i_az, 0 ≤ i_alt < 14 → 0 ≤ i_az < 2 →
       look_obs_groups_michi table (i_alt * 2 + i_az) = Ok (i_alt, i_az)) ∧
    (∀ group_id, ¬ (0 ≤ group_id < 14 * 2) →
       look_obs_groups_michi table group_id = Err IndexError).
Proof.
  apply (look_obs_groups_michi_round_trip altitude_edges azimuth_edges).
  - vm_compute. discriminate.
  - vm_compute. discriminate.
Defined.

(** ** What filling and binning leave alone *)

Lemma fill_loop_frame (l : list observation) (u u' : option string)
    (m m' : CubeBackgroundModel) :
  fill_loop l (u, m) = Ok (u', m') →
  background_cube m' = background_cube m ∧
  data_unit (counts_cube m') = data_unit (counts_cube m) ∧
  scheme (counts_cube m') = scheme (counts_cube m) ∧
  data_unit (livetime_cube m') = data_unit (livetime_cube m) ∧
  scheme (livetime_cube m') = scheme (livetime_cube m).
Proof.
  revert u m. induction l as [|obs l IH]; intros u m Hfill.
  - by injection Hfill as <- <-.
  - cbn [fill_loop] in Hfill.
    apply bind_Ok in Hfill as ([u1 m1] & Hobs & Hfill).
    apply fill_observation_Ok in Hobs as (card & hist & _ & _ & _ & _ & ->).
    by apply IH in Hfill.
Qed.

(** [fill_events] never computes the background: the background cube of
    the model that it returns is the one it was given, and the counts and
    livetime cubes keep their units and schemes. *)
Theorem fill_events_keeps_background (self self' : CubeBackgroundModel)
    (observation_table : ObservationTable) :
  fill_events self observation_table = Ok self' →
  background_cube self' = background_cube self ∧
  data_unit (counts_cube self') = data_unit (counts_cube self) ∧
  scheme (counts_cube self') = scheme (counts_cube self) ∧
  data_unit (livetime_cube self') = data_unit (livetime_cube self) ∧
  scheme (livetime_cube self') = scheme (livetime_cube self).
Proof.
  unfold fill_events. intros H.
  apply bind_Ok in H as (sch & _ & H).
  apply bind_Ok in H as ([u' m'] & Hloop & [= <-]).
  by apply (fill_loop_frame (rows observation_table) None u' self m').
Qed.

Lemma fill_events_keeps_background_witness :
  ∃ self',
    fill_events zero_model two_observations = Ok self' ∧
    background_cube self' = background_cube zero_model.
Proof.
  eexists. split.
  - vm_compute. reflexivity.
  - apply (fill_events_keeps_background zero_model _ two_observations).
    vm_compute. reflexivity.
Defined.

Lemma n_bins_linear_edges (n : Z) (lo hi : Qc) :
  0 ≤ n → Z.of_nat (n_bins (linear_edges n lo hi)) = n.
Proof.
  intros Hn. unfold n_bins, linear_edges, np_arange.
  rewrite length_map, length_seqZ. lia.
Qed.

Lemma n_bins_log_edges (np_log np_exp : Qc → Qc) (n : Z) (lo hi : Qc) :
  0 ≤ n → Z.of_nat (n_bins (log_edges np_log np_exp n lo hi)) = n.
Proof.
  intros Hn. unfold n_bins, log_edges, np_arange.
  rewrite length_map, length_seqZ. lia.
Qed.

(** Whatever the size of the group, the binning that
    [define_cube_binning] gives has from 10 to 20 energy bins and from 20
    to 60 bins on each spatial axis: the number of bins of an axis is
    never zero or less. *)
Theorem define_cube_binning_bin_count_bounds (np_log np_exp : Qc → Qc)
    (deg_per_rad : Qc) (observation_table : ObservationTable)
    (do_not_fill : bool) (method : string) (m : CubeBackgroundModel) :
  define_cube_binning np_log np_exp deg_per_rad observation_table
    do_not_fill method = Ok m →
  (10 ≤ n_bins (energy_edges (counts_cube m)) ≤ 20)%nat ∧
  (20 ≤ n_bins (coordy_edges (counts_cube m)) ≤ 60)%nat ∧
  (20 ≤ n_bins (coordx_edges (counts_cube m)) ≤ 60)%nat ∧
  has_shape (n_bins (energy_edges (counts_cube m)))
            (n_bins (coordy_edges (counts_cube m)))
            (n_bins (coordx_edges (counts_cube m)))
            (data (background_cube m)).
Proof.
  intros H.
  apply define_cube_binning_Ok in H as (energy_min & _ & Hshared & Hedges).
  cbn zeta in Hedges. unfold edges_of in Hedges.
  pose proof (bg_cube_shape_bounds (len (rows observation_table))) as Hb.
  destruct Hb as (Hne & Hny & Hnx); [unfold len; lia|].
  destruct Hshared as (_ & _ & _ & Hbg).
  unfold edges_of in Hbg. cbn [fst snd] in Hbg.
  injection Hedges as Hx Hy He.
  pose proof (n_bins_linear_edges
    (bg_cube_shape (len (rows observation_table))).2
    (- qfrac 7 100 * deg_per_rad)%Qc (qfrac 7 100 * deg_per_rad)%Qc) as Hlx.
  pose proof (n_bins_linear_edges
    (bg_cube_shape (len (rows observation_table))).1.2
    (- qfrac 7 100 * deg_per_rad)%Qc (qfrac 7 100 * deg_per_rad)%Qc) as Hly.
  pose proof (n_bins_log_edges np_log np_exp
    (bg_cube_shape (len (rows observation_table))).1.1
    (value energy_min) (qz 80)) as Hle.
  rewrite <- Hx in Hlx. rewrite <- Hy in Hly. rewrite <- He in Hle.
  repeat split; try lia. done.
Qed.

Lemma define_cube_binning_bin_count_bounds_witness :
  ∃ m,
    define_cube_binning (fun q => q) (fun q => q) (qz 57) two_observations
      false "default" = Ok m ∧
    (10 ≤ n_bins (energy_edges (counts_cube m)) ≤ 20)%nat ∧
    (20 ≤ n_bins (coordy_edges (counts_cube m)) ≤ 60)%nat ∧
    (20 ≤ n_bins (coordx_edges (counts_cube m)) ≤ 60)%nat ∧
    has_shape (n_bins (energy_edges (counts_cube m)))
              (n_bins (coordy_edges (counts_cube m)))
              (n_bins (coordx_edges (counts_cube m)))
              (data (background_cube m)).
Proof.
  eexists. split.
  - vm_compute. reflexivity.
  - apply (define_cube_binning_bin_count_bounds (fun q => q) (fun q => q)
             (qz 57) two_observations false "default").
    vm_compute. reflexivity.
Defined.
